(** * The task coordinator of [task_manager/task_manager.py]

    A shallow embedding of [TaskManager]: the persisted state document, the
    read-modify-write operations on it, and the properties of the task
    life cycle.

    Modelling conventions.
    - A timestamp is an instant in microseconds ([Z]); [datetime.isoformat]
      and [datetime.fromisoformat] are inverse to each other on the naive
      datetimes the code uses, so the strings are not modelled.  The
      comparison [hours_elapsed > task_timeout_hours] is taken over exact
      arithmetic; the code makes it on the double
      [total_seconds() / 3600].  The two never differ on a task locked
      [task_timeout_hours] hours or less before the time read, and they
      agree on every other task when the timeout is in the range
      [timeout_in_range], which holds the default of 24 hours.
    - A Python [dict] keeps insertion order and [get_next_task] depends on
      it, so a dict is an association list: assignment to a present key
      replaces the value in place, assignment to a new key appends.
    - The state file is the component [disk] of the run state; an operation
      loads it, works on the loaded copy and saves it.
    - [datetime.now()] is an effect: the k-th reading made during one call
      is [clock k].
    - [uuid.uuid4().hex[:8]] is an effect too: the eight hexadecimal digits
      drawn are an argument of [create_task].
    - The arguments have the types the signatures give them: a task id
      and the agent id given to [get_next_task] are strings, a status is a
      [TaskStatus].  The agent id given to [complete_task] and
      [release_task] is a string or [None]: [data_pipeline.py] passes
      them the [locked_by] it has read from the task, which is [None] on
      a task nobody holds.
    - The file lock makes the operations atomic; one call runs from its
      [_acquire_lock] to its [_release_lock] without interference, which is
      the sequential semantics given here.  A call that cannot take the
      lock within [lock_timeout] raises before it reads the file; it is not
      one of the calls considered. *)

From Stdlib Require Import ZArith List String Ascii Bool Lia.
Import ListNotations.

Local Open Scope string_scope.
Local Open Scope list_scope.
Local Open Scope Z_scope.

(** ** Data model *)

Definition Time := Z.

Inductive TaskStatus : Type :=
| PENDING
| IN_PROGRESS
| COMPLETED
| FAILED
| CANCELLED.

Definition value (s : TaskStatus) : string :=
  match s with
  | PENDING => "pending"
  | IN_PROGRESS => "in_progress"
  | COMPLETED => "completed"
  | FAILED => "failed"
  | CANCELLED => "cancelled"
  end.

Definition status_eqb (a b : TaskStatus) : bool :=
  match a, b with
  | PENDING, PENDING | IN_PROGRESS, IN_PROGRESS | COMPLETED, COMPLETED
  | FAILED, FAILED | CANCELLED, CANCELLED => true
  | _, _ => false
  end.

Definition terminal (s : TaskStatus) : bool :=
  match s with
  | COMPLETED | FAILED | CANCELLED => true
  | PENDING | IN_PROGRESS => false
  end.

(** JSON values held in [data] and in the workflow metadata.  [JStamp t] is
    the string [isoformat] writes for the instant [t]. *)
#[warnings="-register-all"]
Inductive json : Type :=
| JNull
| JBool (b : bool)
| JNum (n : Z)
| JStr (s : string)
| JStamp (t : Time)
| JArr (l : list json)
| JObj (o : list (string * json)).

(** Insertion-ordered dictionaries with string keys. *)
Definition dict (V : Type) : Type := list (string * V).

Fixpoint dict_get {V} (k : string) (d : dict V) : option V :=
  match d with
  | [] => None
  | (k', v) :: d' => if String.eqb k k' then Some v else dict_get k d'
  end.

Definition dict_mem {V} (k : string) (d : dict V) : bool :=
  match dict_get k d with Some _ => true | None => false end.

(** [d[k] = v] *)
Fixpoint dict_set {V} (k : string) (v : V) (d : dict V) : dict V :=
  match d with
  | [] => [(k, v)]
  | (k', v') :: d' =>
      if String.eqb k k' then (k, v) :: d' else (k', v') :: dict_set k v d'
  end.

(** [d.update(m)] *)
Definition dict_update {V} (d m : dict V) : dict V :=
  fold_left (fun acc kv => dict_set (fst kv) (snd kv) acc) m d.

Definition keys {V} (d : dict V) : list string := map fst d.

(** A task document.  [task_started_at] and [updated_at] are keys that may
    be absent from the Python dict: [None] stands for an absent key.  For
    the other optional fields [None] is the JSON [null]. *)
Record Task : Type := mkTask {
  type : string;
  status : TaskStatus;
  parent_id : option string;
  locked_by : option string;
  locked_at : option Time;
  completed_at : option Time;
  created_at : Time;
  data : dict json;
  task_started_at : option Time;
  updated_at : option Time
}.

Definition set_status (s : TaskStatus) (t : Task) : Task :=
  mkTask (type t) s (parent_id t) (locked_by t) (locked_at t) (completed_at t)
         (created_at t) (data t) (task_started_at t) (updated_at t).

Definition set_locked_by (a : option string) (t : Task) : Task :=
  mkTask (type t) (status t) (parent_id t) a (locked_at t) (completed_at t)
         (created_at t) (data t) (task_started_at t) (updated_at t).

Definition set_locked_at (x : option Time) (t : Task) : Task :=
  mkTask (type t) (status t) (parent_id t) (locked_by t) x (completed_at t)
         (created_at t) (data t) (task_started_at t) (updated_at t).

Definition set_completed_at (x : option Time) (t : Task) : Task :=
  mkTask (type t) (status t) (parent_id t) (locked_by t) (locked_at t) x
         (created_at t) (data t) (task_started_at t) (updated_at t).

Definition set_data (d : dict json) (t : Task) : Task :=
  mkTask (type t) (status t) (parent_id t) (locked_by t) (locked_at t)
         (completed_at t) (created_at t) d (task_started_at t) (updated_at t).

Definition set_task_started_at (x : option Time) (t : Task) : Task :=
  mkTask (type t) (status t) (parent_id t) (locked_by t) (locked_at t)
         (completed_at t) (created_at t) (data t) x (updated_at t).

Definition set_updated_at (x : option Time) (t : Task) : Task :=
  mkTask (type t) (status t) (parent_id t) (locked_by t) (locked_at t)
         (completed_at t) (created_at t) (data t) (task_started_at t) x.

(** The whole persisted document. *)
Record State : Type := mkState {
  workflow_type : string;
  metadata : dict json;
  tasks : dict Task
}.

Definition set_tasks (ts : dict Task) (s : State) : State :=
  mkState (workflow_type s) (metadata s) ts.

Definition set_metadata (m : dict json) (s : State) : State :=
  mkState (workflow_type s) m (tasks s).

(** ** The random suffix of a task id: eight hexadecimal digits *)

Inductive hexdigit : Type :=
| x0 | x1 | x2 | x3 | x4 | x5 | x6 | x7
| x8 | x9 | xa | xb | xc | xd | xe | xf.

Definition hexchar (h : hexdigit) : ascii :=
  match h with
  | x0 => "0" | x1 => "1" | x2 => "2" | x3 => "3"
  | x4 => "4" | x5 => "5" | x6 => "6" | x7 => "7"
  | x8 => "8" | x9 => "9" | xa => "a" | xb => "b"
  | xc => "c" | xd => "d" | xe => "e" | xf => "f"
  end%char.

Record hex8 : Type := mkHex8 {
  h1 : hexdigit; h2 : hexdigit; h3 : hexdigit; h4 : hexdigit;
  h5 : hexdigit; h6 : hexdigit; h7 : hexdigit; h8 : hexdigit
}.

Definition hex (u : hex8) : string :=
  String (hexchar (h1 u)) (String (hexchar (h2 u)) (String (hexchar (h3 u))
  (String (hexchar (h4 u)) (String (hexchar (h5 u)) (String (hexchar (h6 u))
  (String (hexchar (h7 u)) (String (hexchar (h8 u)) EmptyString))))))).

(** [f"{task_type}_{uuid.uuid4().hex[:8]}"] *)
Definition make_task_id (task_type : string) (u : hex8) : string :=
  (task_type ++ "_" ++ hex u)%string.

(** ** Effects: the state file and the clock *)

Record Run : Type := mkRun {
  disk : State;
  tick : nat
}.

Definition M (A : Type) : Type := Run -> A * Run.

Definition ret {A} (a : A) : M A := fun r => (a, r).

Definition bind {A B} (m : M A) (k : A -> M B) : M B :=
  fun r => let (a, r') := m r in k a r'.

Notation "x <- m ;; k" := (bind m (fun x => k))
  (at level 61, m at next level, right associativity).
Notation "m ;;; k" := (bind m (fun _ => k))
  (at level 61, right associativity).

(** Truthiness of an optional list or dict argument: [None] and the empty
    container are both false. *)
Definition truthy {A} (x : option (list A)) : bool :=
  match x with
  | None | Some [] => false
  | Some (_ :: _) => true
  end.

(** [task["locked_by"] != agent_id], for an [agent_id] that is a string or
    [None]: on a task nobody holds, [None] does not differ. *)
Definition locked_by_differs (t : Task) (agent_id : option string) : bool :=
  match locked_by t, agent_id with
  | Some a, Some b => negb (String.eqb a b)
  | None, None => false
  | _, _ => true
  end.

(** [x in xs] on strings. *)
Definition str_in (x : string) (xs : list string) : bool :=
  existsb (String.eqb x) xs.

(** One hour, in microseconds. *)
Definition hour : Z := 3600 * 1000000.

(** The timeouts of less than [2 ^ 34] seconds (4772186 hours): for
    these, one microsecond past the timeout the double
    [total_seconds() / 3600] already exceeds [task_timeout_hours], and the
    exact test below is the test the code makes. *)
Definition timeout_in_range (W : Z) : Prop := 0 <= W /\ 3600 * W < 2 ^ 34.

(** The assignments each operation makes to the task it works on. *)

(** [_check_timeouts], the auto-release branch. *)
Definition expire (task : Task) : Task :=
  set_task_started_at None
    (set_locked_at None (set_locked_by None (set_status PENDING task))).

(** [get_next_task], "Assign to agent": [t1] and [t2] are the two successive
    readings of the clock. *)
Definition claim (agent_id : string) (t1 t2 : Time) (task : Task) : Task :=
  set_task_started_at (Some t2)
    (set_locked_at (Some t1)
       (set_locked_by (Some agent_id) (set_status IN_PROGRESS task))).

(** [complete_task], "Update task" and "Merge result data if provided". *)
Definition complete (status : TaskStatus) (t : Time)
           (result_data : option (dict json)) (task : Task) : Task :=
  let task := set_locked_at None (set_locked_by None
                (set_completed_at (Some t) (set_status status task))) in
  if truthy result_data
  then set_data (dict_update (data task)
                   (match result_data with Some d => d | None => [] end)) task
  else task.

(** [release_task], "Release task"; [task_started_at] is not touched. *)
Definition release (task : Task) : Task :=
  set_locked_at None (set_locked_by None (set_status PENDING task)).

(** [update_task_data]: the merge, then the [updated_at] stamp. *)
Definition merge_data (d : dict json) (t : Time) (task : Task) : Task :=
  set_updated_at (Some t) (set_data (dict_update (data task) d) task).

(** [_save_state]: the [last_updated] stamp. *)
Definition stamp (t : Time) (state : State) : State :=
  set_metadata (dict_set "last_updated" (JStamp t) (metadata state)) state.

Section TaskManager.

(** The readings of [datetime.now()] during the call. *)
Variable clock : nat -> Time.

(** [self.task_timeout_hours] *)
Variable task_timeout_hours : Z.

(** [datetime.now()]: the next reading of the clock. *)
Definition now : M Time :=
  fun r => (clock (tick r), mkRun (disk r) (S (tick r))).

(** [_load_state]: the document in the file. *)
Definition _load_state : M State :=
  fun r => (disk r, r).

(** [_save_state] stamps [last_updated] on the state it is given (the
    caller's object, hence the returned state) and replaces the file. *)
Definition _save_state (state : State) : M State :=
  t <- now ;;
  let state' := stamp t state in
  fun r => (state', mkRun state' (tick r)).

(** [hours_elapsed > self.task_timeout_hours], with
    [hours_elapsed = (current_time - locked_time).total_seconds() / 3600]
    and the instants in microseconds, in exact arithmetic.  The code
    rounds both quotients to a double; rounding is monotone and whole
    hours are exact, so the code's test is false whenever this one is,
    and it is true whenever this one is for a timeout in
    [timeout_in_range]. *)
Definition timed_out (current_time locked_time : Time) : bool :=
  task_timeout_hours * hour <? current_time - locked_time.

(** The body of the loop of [_check_timeouts] on one task: the task after
    the iteration and whether it was released. *)
Definition check_task (current_time : Time) (task : Task) : Task * bool :=
  match status task, locked_at task with
  | IN_PROGRESS, Some locked_time =>
      if timed_out current_time locked_time then (expire task, true)
      else (task, false)
  | _, _ => (task, false)
  end.

(** The loop of [_check_timeouts] over [state["tasks"].items()]: the
    collection after the loop and [released_tasks]. *)
Fixpoint check_tasks (current_time : Time) (ts : dict Task)
  : dict Task * list string :=
  match ts with
  | [] => ([], [])
  | (task_id, task) :: ts' =>
      let (task', rel) := check_task current_time task in
      let (ts'', released) := check_tasks current_time ts' in
      ((task_id, task') :: ts'', if rel then task_id :: released else released)
  end.

(** [_check_timeouts] reads the clock once and mutates the state it is
    given. *)
Definition _check_timeouts (state : State) : M (State * list string) :=
  current_time <- now ;;
  let (ts, released_tasks) := check_tasks current_time (tasks state) in
  ret (set_tasks ts state, released_tasks).

(** [create_task]; [u] is the suffix drawn for the id.  The assignment
    [state["tasks"][task_id] = {...}] does not look at the keys present. *)
Definition create_task (u : hex8) (task_type : string) (data : dict json)
           (parent_id : option string) : M string :=
  state <- _load_state ;;
  let task_id := make_task_id task_type u in
  t <- now ;;
  let task := mkTask task_type PENDING parent_id None None None t data None None in
  _save_state (set_tasks (dict_set task_id task (tasks state)) state) ;;;
  ret task_id.

(** A pending task passes the filter unless [task_types] is truthy and
    does not contain its type. *)
Definition filtered_out (task_types : option (list string)) (task : Task) : bool :=
  truthy task_types &&
  negb (str_in (type task) (match task_types with Some l => l | None => [] end)).

(** The [for] loop of [get_next_task]: [done] are the items already
    passed, [todo] the items still to visit. *)
Fixpoint claim_loop (agent_id : string) (task_types : option (list string))
         (state : State) (done todo : dict Task) : M (option (string * Task)) :=
  match todo with
  | [] => ret None
  | (task_id, task) :: todo' =>
      if status_eqb (status task) PENDING then
        if filtered_out task_types task then
          claim_loop agent_id task_types state (done ++ [(task_id, task)]) todo'
        else
          t1 <- now ;;
          t2 <- now ;;
          let task' := claim agent_id t1 t2 task in
          _save_state (set_tasks (done ++ (task_id, task') :: todo') state) ;;;
          ret (Some (task_id, task'))
      else
        claim_loop agent_id task_types state (done ++ [(task_id, task)]) todo'
  end.

(** [get_next_task]: "Check for timeouts first", save if anything was
    released, then "Find next available task".  The result [{"id": task_id,
    **task}] is the pair of the id and the task. *)
Definition get_next_task (agent_id : string) (task_types : option (list string))
  : M (option (string * Task)) :=
  state <- _load_state ;;
  cr <- _check_timeouts state ;;
  let (state, released) := cr in
  state <- (match released with
            | [] => ret state
            | _ :: _ => _save_state state
            end) ;;
  claim_loop agent_id task_types state [] (tasks state).

(** [complete_task]: [False] when the id is not a key or the task is not
    locked by [agent_id]; the status written is the one given. *)
Definition complete_task (task_id : string) (agent_id : option string)
           (status : TaskStatus) (result_data : option (dict json)) : M bool :=
  state <- _load_state ;;
  match dict_get task_id (tasks state) with
  | None => ret false
  | Some task =>
      if locked_by_differs task agent_id then ret false
      else
        t <- now ;;
        let task := complete status t result_data task in
        _save_state (set_tasks (dict_set task_id task (tasks state)) state) ;;;
        ret true
  end.

(** [release_task], with the same two checks. *)
Definition release_task (task_id : string) (agent_id : option string) : M bool :=
  state <- _load_state ;;
  match dict_get task_id (tasks state) with
  | None => ret false
  | Some task =>
      if locked_by_differs task agent_id then ret false
      else
        let task := release task in
        _save_state (set_tasks (dict_set task_id task (tasks state)) state) ;;;
        ret true
  end.

(** [get_task] reads the file without the lock. *)
Definition get_task (task_id : string) : M (option (string * Task)) :=
  state <- _load_state ;;
  match dict_get task_id (tasks state) with
  | Some task => ret (Some (task_id, task))
  | None => ret None
  end.

(** [update_workflow_metadata] *)
Definition update_workflow_metadata (md : dict json) : M unit :=
  state <- _load_state ;;
  _save_state (set_metadata (dict_update (metadata state) md) state) ;;;
  ret tt.

(** [update_task_data]: [False] when the id is not a key. *)
Definition update_task_data (task_id : string) (d : dict json) : M bool :=
  state <- _load_state ;;
  match dict_get task_id (tasks state) with
  | None => ret false
  | Some task =>
      t <- now ;;
      let task := merge_data d t task in
      _save_state (set_tasks (dict_set task_id task (tasks state)) state) ;;;
      ret true
  end.

(** One call on the state file [s]: its result and the file afterwards. *)
Definition call {A} (m : M A) (s : State) : A * State :=
  let (a, r) := m (mkRun s 0) in (a, disk r).

(** [_initialize_state]: the document written when the file does not
    exist. *)
Definition _initialize_state : State :=
  mkState "generic"
          [("initialized_at", JStamp (clock 0)); ("last_updated", JStamp (clock 1))]
          [].

End TaskManager.

(** ** Calls and reachable states *)

Inductive Call : Type :=
| CreateTask (u : hex8) (task_type : string) (data : dict json)
             (parent_id : option string)
| GetNextTask (agent_id : string) (task_types : option (list string))
| CompleteTask (task_id : string) (agent_id : option string) (status : TaskStatus)
               (result_data : option (dict json))
| ReleaseTask (task_id : string) (agent_id : option string)
| UpdateTaskData (task_id : string) (data : dict json)
| UpdateWorkflowMetadata (metadata : dict json).

(** The state file after the call [c], made by a manager whose timeout is
    [W] hours and during which the clock reads [clock]. *)
Definition exec (W : Z) (clock : nat -> Time) (c : Call) (s : State) : State :=
  match c with
  | CreateTask u ty d p => snd (call (create_task clock u ty d p) s)
  | GetNextTask a tys => snd (call (get_next_task clock W a tys) s)
  | CompleteTask id a st rd => snd (call (complete_task clock id a st rd) s)
  | ReleaseTask id a => snd (call (release_task clock id a) s)
  | UpdateTaskData id d => snd (call (update_task_data clock id d) s)
  | UpdateWorkflowMetadata md => snd (call (update_workflow_metadata clock md) s)
  end.

(** A clock that reads [T] during the whole call: the call happens at
    time [T]. *)
Definition at_time (T : Time) : nat -> Time := fun _ => T.

(** The field [f] of the task [id], as [get_task] reads it. *)
Definition read_field {A} (f : Task -> A) (id : string) (s : State) : option A :=
  option_map (fun x => f (snd x)) (fst (call (get_task id) s)).

(** States reachable from the freshly initialised file by calls that
    satisfy [allowed]. *)
Inductive reachable_by (allowed : Call -> Prop) : State -> Prop :=
| reach_init (clock : nat -> Time) :
    reachable_by allowed (_initialize_state clock)
| reach_step (s : State) (W : Z) (clock : nat -> Time) (c : Call) :
    reachable_by allowed s -> allowed c -> reachable_by allowed (exec W clock c s).

Definition reachable : State -> Prop := reachable_by (fun _ => True).

(** Reachability of a state written as a nest of [exec]. *)
Ltac reach :=
  repeat (first [ apply reach_init
                | apply reach_step; [|first [exact I | reflexivity]] ]).

(** What one call can do to the task stored under the key [k]. *)
Inductive task_edge : Call -> string -> Task -> Task -> Prop :=
| edge_none c k t :
    task_edge c k t t
| edge_expire a tys k t l :
    status t = IN_PROGRESS -> locked_at t = Some l ->
    task_edge (GetNextTask a tys) k t (expire t)
| edge_claim a tys k t t1 t2 :
    status t = PENDING ->
    task_edge (GetNextTask a tys) k t (claim a t1 t2 t)
| edge_expire_claim a tys k t l t1 t2 :
    status t = IN_PROGRESS -> locked_at t = Some l ->
    task_edge (GetNextTask a tys) k t (claim a t1 t2 (expire t))
| edge_complete k a st rd t tm :
    locked_by t = a ->
    task_edge (CompleteTask k a st rd) k t (complete st tm rd t)
| edge_release k a t :
    locked_by t = a ->
    task_edge (ReleaseTask k a) k t (release t)
| edge_merge k d t tm :
    task_edge (UpdateTaskData k d) k t (merge_data d tm t)
| edge_replace u ty d p t tm :
    task_edge (CreateTask u ty d p) (make_task_id ty u) t
              (mkTask ty PENDING p None None None tm d None None).

Definition entry_edge (c : Call) (a b : string * Task) : Prop :=
  fst a = fst b /\ task_edge c (fst a) (snd a) (snd b).

(** The entries a call appends to the task collection. *)
Definition appended (c : Call) (kv : string * Task) : Prop :=
  match c with
  | CreateTask u ty d p =>
      fst kv = make_task_id ty u /\
      exists tm, snd kv = mkTask ty PENDING p None None None tm d None None
  | _ => False
  end.

(** [create_task] draws an id that is already a key of the collection. *)
Definition overwrites (c : Call) (s : State) : bool :=
  match c with
  | CreateTask u ty _ _ => dict_mem (make_task_id ty u) (tasks s)
  | _ => false
  end.

(** The agent id given to [complete_task] or [release_task] is a string,
    as their signatures have it, and not [None]. *)
Definition agent_named (c : Call) : bool :=
  match c with
  | CompleteTask _ None _ _ | ReleaseTask _ None => false
  | _ => true
  end.

(** The lock fields are both set exactly on the tasks in progress. *)
Definition lock_fields_iff_in_progress (t : Task) : Prop :=
  (locked_by t <> None /\ locked_at t <> None) <-> status t = IN_PROGRESS.

Definition lock_invariant (s : State) : Prop :=
  forall id t, In (id, t) (tasks s) -> lock_fields_iff_in_progress t.

(** The shape the lock fields have in every reachable state. *)
Definition idle_unlocked (t : Task) : Prop :=
  status t <> IN_PROGRESS -> locked_by t = None /\ locked_at t = None.

Definition locked_in_progress (t : Task) : Prop :=
  status t = IN_PROGRESS -> locked_by t <> None /\ locked_at t <> None.

Definition completes_in_progress (c : Call) : bool :=
  match c with
  | CompleteTask _ _ IN_PROGRESS _ => true
  | _ => false
  end.

(** The status edges the life cycle excludes: out of a terminal status,
    and from pending straight to a terminal status. *)
Definition status_step_ok (a b : TaskStatus) : Prop :=
  (terminal a = true -> b = a) /\ (a = PENDING -> terminal b = false).

(** A task that [get_next_task] may claim under the filter [task_types]. *)
Definition claimable (task_types : option (list string)) (task : Task) : bool :=
  status_eqb (status task) PENDING && negb (filtered_out task_types task).

(** The filter as the caller sees it: no list or an empty list admit
    every type, a non-empty list admits its members. *)
Definition type_matches (task_types : option (list string)) (ty : string) : Prop :=
  match task_types with
  | None | Some [] => True
  | Some l => In ty l
  end.

(** The first claimable item of the collection, with the items before and
    after it. *)
Fixpoint first_claimable (task_types : option (list string)) (ts : dict Task)
  : option (dict Task * (string * Task) * dict Task) :=
  match ts with
  | [] => None
  | (k, t) :: ts' =>
      if claimable task_types t then Some ([], (k, t), ts')
      else match first_claimable task_types ts' with
           | Some (l1, x, l2) => Some ((k, t) :: l1, x, l2)
           | None => None
           end
  end.

(** The state [get_next_task] scans: the loaded state after
    [_check_timeouts] at the instant [C]. *)
Definition reclaimed (W : Z) (C : Time) (s : State) : State :=
  set_tasks (fst (check_tasks W C (tasks s))) s.

(** The index of the reading of the clock that a claim stores in
    [locked_at]: reading 0 is made by [_check_timeouts], and reading 1 by
    [_save_state] when a task was released. *)
Definition claim_reading (W : Z) (C : Time) (s : State) : nat :=
  match snd (check_tasks W C (tasks s)) with
  | [] => 1%nat
  | _ :: _ => 2%nat
  end.


(** A batch of [create_task] calls. *)
Record CreateArgs : Type := mkCreate {
  c_clock : nat -> Time;
  c_uuid : hex8;
  c_type : string;
  c_data : dict json;
  c_parent : option string
}.

Fixpoint create_tasks (reqs : list CreateArgs) (s : State) : list string * State :=
  match reqs with
  | [] => ([], s)
  | q :: reqs' =>
      let (id, s') := call (create_task (c_clock q) (c_uuid q) (c_type q)
                                        (c_data q) (c_parent q)) s in
      let (ids, s'') := create_tasks reqs' s' in
      (id :: ids, s'')
  end.

(** ** A concrete run

    One task of type [seed_dp] whose id draws the suffix [00000000], under
    a manager with the default [task_timeout_hours] of 24. *)

Definition u0 : hex8 := mkHex8 x0 x0 x0 x0 x0 x0 x0 x0.

Definition seed_id : string := "seed_dp_00000000".

(** A fresh file, initialised at time 0. *)
Definition st_init : State := _initialize_state (at_time 0).

(** [create_task("seed_dp", {})] at time 10. *)
Definition st_created : State :=
  exec 24 (at_time 10) (CreateTask u0 "seed_dp" [] None) st_init.

(** [get_next_task("agent-1")] at time 100. *)
Definition st_claimed : State :=
  exec 24 (at_time 100) (GetNextTask "agent-1" None) st_created.

(** [complete_task(id, "agent-1")] at time 200. *)
Definition st_completed : State :=
  exec 24 (at_time 200) (CompleteTask seed_id (Some "agent-1") COMPLETED None) st_claimed.

(** [complete_task(id, "agent-1", TaskStatus.IN_PROGRESS)] at time 200. *)
Definition st_completed_in_progress : State :=
  exec 24 (at_time 200) (CompleteTask seed_id (Some "agent-1") IN_PROGRESS None) st_claimed.

(** ** The queries of [TaskManager] *)

(** [task["parent_id"] == parent_id], for a [parent_id] that is a string. *)
Definition parent_is (task : Task) (parent : string) : bool :=
  match parent_id task with
  | Some p => String.eqb p parent
  | None => false
  end.

(** The loop of [get_task_children] over [state["tasks"].items()]. *)
Fixpoint children_of (parent_id : string) (ts : dict Task) : list (string * Task) :=
  match ts with
  | [] => []
  | (task_id, task) :: ts' =>
      if parent_is task parent_id
      then (task_id, task) :: children_of parent_id ts'
      else children_of parent_id ts'
  end.

(** [get_task_children] reads the file without the lock. *)
Definition get_task_children (parent_id : string) : M (list (string * Task)) :=
  state <- _load_state ;;
  ret (children_of parent_id (tasks state)).

(** [d[k] += 1]: a [KeyError], here [None], when [k] is not a key. *)
Definition dict_incr (k : string) (d : dict nat) : option (dict nat) :=
  match dict_get k d with
  | Some n => Some (dict_set k (S n) d)
  | None => None
  end.

(** [{status.value: 0 for status in TaskStatus}] *)
Definition zero_status_counts : dict nat :=
  [(value PENDING, 0%nat); (value IN_PROGRESS, 0%nat); (value COMPLETED, 0%nat);
   (value FAILED, 0%nat); (value CANCELLED, 0%nat)].

(** The body of the loop of [get_status_summary] on one task, on the pair
    of [status_counts] and [type_counts]. *)
Definition count_task (counts : dict nat * dict nat) (task : Task)
  : option (dict nat * dict nat) :=
  let (status_counts, type_counts) := counts in
  match dict_incr (value (status task)) status_counts with
  | None => None
  | Some status_counts' =>
      let task_type := type task in
      let type_counts' :=
        if dict_mem task_type type_counts then type_counts
        else dict_set task_type 0%nat type_counts in
      match dict_incr task_type type_counts' with
      | None => None
      | Some type_counts'' => Some (status_counts', type_counts'')
      end
  end.

Fixpoint count_tasks (counts : dict nat * dict nat) (ts : dict Task)
  : option (dict nat * dict nat) :=
  match ts with
  | [] => Some counts
  | (_, task) :: ts' =>
      match count_task counts task with
      | None => None
      | Some counts' => count_tasks counts' ts'
      end
  end.

(** The dictionary [get_status_summary] returns. *)
Record Summary : Type := mkSummary {
  total_tasks : nat;
  status_counts : dict nat;
  type_counts : dict nat;
  summary_metadata : dict json
}.

(** [get_status_summary]; [None] stands for the [KeyError] of a count
    whose key is missing. *)
Definition get_status_summary : M (option Summary) :=
  state <- _load_state ;;
  match count_tasks (zero_status_counts, []) (tasks state) with
  | None => ret None
  | Some (sc, tc) =>
      ret (Some (mkSummary (List.length (tasks state)) sc tc (metadata state)))
  end.

(** The number of stored tasks that satisfy [p], and the sum of the counts
    of a dictionary. *)
Definition count_where (p : Task -> bool) (ts : dict Task) : nat :=
  List.length (filter (fun kv => p (snd kv)) ts).

Definition sum_counts (d : dict nat) : nat :=
  fold_right (fun kv acc => (snd kv + acc)%nat) 0%nat d.

(** [complete_task] is given a status that is not terminal. *)
Definition completes_non_terminal (c : Call) : bool :=
  match c with
  | CompleteTask _ _ st _ => negb (terminal st)
  | _ => false
  end.

(** [release_task] is given the agent id [None], the [locked_by] of the
    tasks nobody holds. *)
Definition releases_unheld (c : Call) : bool :=
  match c with
  | ReleaseTask _ None => true
  | _ => false
  end.

(** The calls under which [completed_at] follows the status. *)
Definition completion_tracked (c : Call) : Prop :=
  completes_non_terminal c = false /\ releases_unheld c = false.

(** A second run: two pending tasks, [seed_dp_00000000] created at time
    10 and [draft_dp_00000001], a child of the first, at time 20. *)
Definition u1 : hex8 := mkHex8 x0 x0 x0 x0 x0 x0 x0 x1.

Definition draft_id : string := "draft_dp_00000001".

Definition st_two : State :=
  exec 24 (at_time 20) (CreateTask u1 "draft_dp" [] (Some seed_id)) st_created.

(** ** The command-line wrapper, [data_pipeline.py]

    [DataPipeline] builds its manager with the default timeout of 24
    hours.  A command makes its calls to the manager one after the other;
    [clock k] is the k-th reading of the clock during the command.  The
    artifact files are not part of the state file: [pathlib] and the file
    system are taken as given, and a command that raises gives [None]. *)

(** The replies that carry a status and a message. *)
Record Reply : Type := mkReply {
  reply_status : string;
  message : string
}.

(** The replies of [cmd_next]. *)
Inductive NextReply : Type :=
| next_no_tasks (message : string)
| next_success (id : string) (task : Task) (artifact_path : string).

(** Truthiness of an optional string: [None] and the empty string are
    false. *)
Definition nonempty (x : option string) : bool :=
  match x with
  | None | Some EmptyString => false
  | Some (String _ _) => true
  end.

(** [status_map] of [cmd_complete] *)
Definition status_map (status : string) : option TaskStatus :=
  if String.eqb status "completed" then Some COMPLETED
  else if String.eqb status "failed" then Some FAILED
  else if String.eqb status "rejected" then Some CANCELLED
  else None.

Section DataPipeline.

Variable clock : nat -> Time.

(** [str(self.artifacts_dir)], the operator [/] of [pathlib] followed by
    [str], and [Path(...).exists()]. *)
Variable artifacts_dir : string.
Variable joinpath : string -> string -> string.
Variable file_exists : string -> bool.

(** The copy of an artifact, [Path(artifact_file).read_text()] followed by
    [artifact_path.write_text(...)], from the first path to the second:
    [false] when one of the two raises. *)
Variable copy_artifact : string -> string -> bool.

(** [get_artifact_path] *)
Definition get_artifact_path (task_id task_type : string) : string :=
  let subdir :=
    if String.eqb task_type "seed_dp" then "seed_dps"
    else if String.eqb task_type "final_dp" then "final_dps"
    else "final_dps" in
  if String.eqb task_type "draft_dp"
  then joinpath (joinpath "shared_workspace/data_points" task_id) "draft_spec.md"
  else joinpath (joinpath artifacts_dir subdir) (task_id ++ ".json")%string.

(** [cmd_next] *)
Definition cmd_next (task_type : option string) : M NextReply :=
  let ty := match task_type with Some x => x | None => EmptyString end in
  let agent_id := if nonempty task_type then (ty ++ "_agent")%string
                  else "default_agent" in
  let task_types := if nonempty task_type then Some [ty] else None in
  task <- get_next_task clock 24 agent_id task_types ;;
  match task with
  | None => ret (next_no_tasks "No available tasks")
  | Some (id, task) => ret (next_success id task (get_artifact_path id (type task)))
  end.

(** The end of [cmd_complete]: the call of [complete_task] and the
    reply. *)
Definition complete_and_reply (task_id status : string) (agent_id : option string)
           (st : TaskStatus) (result_data : dict json) : M (option Reply) :=
  success <- complete_task clock task_id agent_id st (Some result_data) ;;
  if success
  then ret (Some (mkReply "success"
                          ("Task " ++ task_id ++ " marked as " ++ status)%string))
  else ret (Some (mkReply "error" "Failed to complete task (wrong agent or not found)")).

(** [cmd_complete]: the agent id it passes on is the [locked_by] it reads;
    the artifact is copied before [complete_task] is called, and when the
    copy raises the command raises. *)
Definition cmd_complete (task_id status : string) (artifact_file : option string)
  : M (option Reply) :=
  match status_map status with
  | None => ret (Some (mkReply "error" ("Invalid status: " ++ status)%string))
  | Some st =>
      task <- get_task task_id ;;
      match task with
      | None => ret (Some (mkReply "error" ("Task " ++ task_id ++ " not found")%string))
      | Some (_, task) =>
          let agent_id := locked_by task in
          let file := match artifact_file with Some f => f | None => EmptyString end in
          if nonempty artifact_file && file_exists file then
            let artifact_path := get_artifact_path task_id (type task) in
            if copy_artifact file artifact_path
            then complete_and_reply task_id status agent_id st
                                    [("artifact_saved", JStr artifact_path)]
            else ret None
          else complete_and_reply task_id status agent_id st []
      end
  end.

(** [cmd_release] *)
Definition cmd_release (task_id : string) : M Reply :=
  task <- get_task task_id ;;
  match task with
  | None => ret (mkReply "error" ("Task " ++ task_id ++ " not found")%string)
  | Some (_, task) =>
      let agent_id := locked_by task in
      success <- release_task clock task_id agent_id ;;
      if success
      then ret (mkReply "success" ("Task " ++ task_id ++ " released")%string)
      else ret (mkReply "error" "Failed to release task")
  end.

End DataPipeline.

(** ** The validation scripts

    [scripts/validate_all_prod_dps.py] queues one task of type [validate]
    for a row of a CSV file, and [scripts/create_verified_csv.py] reads
    the ids whose validation completed.  The CSV reader is taken as given:
    a row is the value of its [task_id] column. *)

(** [s.startswith(p)] *)
Fixpoint startswith (s p : string) : bool :=
  match p, s with
  | EmptyString, _ => true
  | String _ _, EmptyString => false
  | String a p', String b s' => Ascii.eqb a b && startswith s' p'
  end.

(** [s[n:]] *)
Fixpoint drop (n : nat) (s : string) : string :=
  match n, s with
  | O, _ => s
  | S _, EmptyString => EmptyString
  | S n', String _ s' => drop n' s'
  end.

(** [s.replace(old, new, 1)]: the leftmost occurrence of [old] is
    replaced. *)
Fixpoint replace_first (old new s : string) : string :=
  if startswith s old then (new ++ drop (String.length old) s)%string
  else match s with
       | EmptyString => EmptyString
       | String c s' => String c (replace_first old new s')
       end.

(** The loop of [initialize_tasks] over the ids of the state, which fills
    the set [existing_tasks]. *)
Fixpoint existing_tasks (task_ids : list string) : list string :=
  match task_ids with
  | [] => []
  | task_id :: task_ids' =>
      if startswith task_id "validate_"
      then replace_first "validate_" "" task_id :: existing_tasks task_ids'
      else existing_tasks task_ids'
  end.

(** A row of the CSV file: [row.get('task_id')], and what the row meets if
    a task is created for it: the reading of the clock put in the data,
    the clock of the call of [create_task] and the suffix drawn. *)
Record Row : Type := mkRow {
  row_task_id : option string;
  row_now : Time;
  row_clock : nat -> Time;
  row_uuid : hex8
}.

(** The loop of [initialize_tasks] over the rows: [new_tasks] and the
    state file after the loop. *)
Fixpoint initialize_rows (csv_path : string) (existing : list string)
         (rows : list Row) (s : State) : nat * State :=
  match rows with
  | [] => (0%nat, s)
  | row :: rows' =>
      if negb (nonempty (row_task_id row)) then initialize_rows csv_path existing rows' s
      else
        let task_id := match row_task_id row with Some x => x | None => EmptyString end in
        if str_in task_id existing then initialize_rows csv_path existing rows' s
        else
          let s' := snd (call (create_task (row_clock row) (row_uuid row) "validate"
                                 [("original_task_id", JStr task_id);
                                  ("csv_path", JStr csv_path);
                                  ("created_at", JStamp (row_now row))]
                                 None) s) in
          let (new_tasks, s'') := initialize_rows csv_path existing rows' s' in
          (S new_tasks, s'')
  end.

(** [initialize_tasks]: [None] stands for an exception of
    [get_status_summary]. *)
Definition initialize_tasks (csv_path : string) (rows : list Row) (s : State)
  : option (nat * State) :=
  match fst (call get_status_summary s) with
  | None => None
  | Some _ => Some (initialize_rows csv_path (existing_tasks (keys (tasks s))) rows s)
  end.

(** A value that can be put in a Python set. *)
Definition hashable (v : json) : bool :=
  match v with
  | JArr _ | JObj _ => false
  | _ => true
  end.

(** The loop of [get_completed_task_ids]; [None] stands for the [KeyError]
    of a task without [original_task_id] and the [TypeError] of a value
    that cannot be put in a set. *)
Fixpoint completed_originals (ts : dict Task) : option (list json) :=
  match ts with
  | [] => Some []
  | (task_id, task) :: ts' =>
      if status_eqb (status task) COMPLETED && startswith task_id "validate_" then
        match dict_get "original_task_id" (data task) with
        | None => None
        | Some original_id =>
            if hashable original_id
            then option_map (cons original_id) (completed_originals ts')
            else None
        end
      else completed_originals ts'
  end.

(** [get_completed_task_ids], the set as the list of its members. *)
Definition get_completed_task_ids : M (option (list json)) :=
  state <- _load_state ;;
  ret (completed_originals (tasks state)).

(** A call of a validation worker or of a reader: no [create_task], and no
    mapping that writes [original_task_id]. *)
Definition keeps_original (c : Call) : bool :=
  match c with
  | CreateTask _ _ _ _ => false
  | CompleteTask _ _ _ (Some d) => negb (dict_mem "original_task_id" d)
  | UpdateTaskData _ d => negb (dict_mem "original_task_id" d)
  | _ => true
  end.

(** The state files of the validation: initialised, filled by
    [initialize_tasks] and worked on by calls that keep
    [original_task_id]. *)
Inductive validation_store : State -> Prop :=
| vs_init (clock : nat -> Time) :
    validation_store (_initialize_state clock)
| vs_initialize (s : State) (csv_path : string) (rows : list Row) (n : nat) (s' : State) :
    validation_store s ->
    initialize_tasks csv_path rows s = Some (n, s') ->
    validation_store s'
| vs_call (s : State) (W : Z) (clock : nat -> Time) (c : Call) :
    validation_store s -> keeps_original c = true ->
    validation_store (exec W clock c s).

(** A task queued by [initialize_tasks]. *)
Definition validation_entry (kv : string * Task) : Prop :=
  (exists u, fst kv = make_task_id "validate" u) /\
  (exists o, dict_get "original_task_id" (data (snd kv)) = Some (JStr o)).

(** The test the loop of [initialize_tasks] makes on a row: its [task_id]
    is not empty and is not in the set [existing]. *)
Definition row_is_new (existing : list string) (row : Row) : bool :=
  match row_task_id row with
  | Some (String c x) => negb (str_in (String c x) existing)
  | _ => false
  end.

(** The id under which [create_task] stores the task of a row. *)
Definition row_key (row : Row) : string := make_task_id "validate" (row_uuid row).

(** The item [create_task] stores for a row. *)
Definition validation_task (csv_path : string) (row : Row) : string * Task :=
  (row_key row,
   mkTask "validate" PENDING None None None None (row_clock row 0%nat)
          [("original_task_id",
            JStr (match row_task_id row with Some x => x | None => EmptyString end));
           ("csv_path", JStr csv_path);
           ("created_at", JStamp (row_now row))]
          None None).

(** Two runs of [initialize_tasks] over a file with one row, for the
    datapoint [draft_dp_ab12cd34]. *)
Definition row_first : Row := mkRow (Some "draft_dp_ab12cd34") 5 (at_time 6) u0.

Definition row_again : Row := mkRow (Some "draft_dp_ab12cd34") 50 (at_time 60) u1.

Definition st_validation : State :=
  snd (initialize_rows "data/latest.csv" [] [row_first] st_init).

(** ** Dictionaries *)

Lemma dict_get_set {V} (k k' : string) (v : V) (d : dict V) :
  dict_get k' (dict_set k v d) =
  if String.eqb k' k then Some v else dict_get k' d.
Proof.
  induction d as [|[k0 v0] d IH]; simpl.
  - destruct (String.eqb k' k); reflexivity.
  - destruct (String.eqb k k0) eqn:E; simpl.
    + apply String.eqb_eq in E. subst k0.
      destruct (String.eqb k' k); reflexivity.
    + rewrite IH. destruct (String.eqb k' k) eqn:E1; [|reflexivity].
      apply String.eqb_eq in E1. subst k'. rewrite E. reflexivity.
Qed.

Lemma dict_get_In {V} (k : string) (v : V) (d : dict V) :
  dict_get k d = Some v -> In (k, v) d.
Proof.
  induction d as [|[k0 v0] d IH]; simpl; [discriminate|].
  destruct (String.eqb k k0) eqn:E.
  - apply String.eqb_eq in E. intros [= ->]. subst. now left.
  - intros H. right. auto.
Qed.

Lemma dict_get_None_keys {V} (k : string) (d : dict V) :
  dict_get k d = None <-> ~ In k (keys d).
Proof.
  induction d as [|[k0 v0] d IH]; simpl.
  - split; auto.
  - destruct (String.eqb k k0) eqn:E.
    + apply String.eqb_eq in E. subst. split; [discriminate|]. intros H. exfalso. auto.
    + apply String.eqb_neq in E. rewrite IH. split.
      * intros H [H1|H1]; [congruence|auto].
      * intros H H1. auto.
Qed.

(** A present key splits the dictionary at its first occurrence, and
    assignment to it rewrites that entry only. *)
Lemma dict_get_split {V} (k : string) (v : V) (d : dict V) :
  dict_get k d = Some v ->
  exists l1 l2, d = l1 ++ (k, v) :: l2 /\ ~ In k (keys l1) /\
                forall v', dict_set k v' d = l1 ++ (k, v') :: l2.
Proof.
  induction d as [|[k0 v0] d IH]; simpl; [discriminate|].
  destruct (String.eqb k k0) eqn:E.
  - apply String.eqb_eq in E. subst k0. intros [= ->].
    exists [], d. simpl. repeat split; auto.
  - intros H. destruct (IH H) as (l1 & l2 & -> & Hn & Hs).
    exists ((k0, v0) :: l1), l2. simpl. repeat split.
    + apply String.eqb_neq in E. intros [H1|H1]; [congruence|auto].
    + intros v'. rewrite Hs. reflexivity.
Qed.

Lemma dict_set_absent {V} (k : string) (v : V) (d : dict V) :
  dict_get k d = None -> dict_set k v d = d ++ [(k, v)].
Proof.
  induction d as [|[k0 v0] d IH]; simpl; [reflexivity|].
  destruct (String.eqb k k0); [discriminate|].
  intros H. now rewrite IH.
Qed.

(** [update] is a shallow merge: the last binding of a key in [m] wins,
    the keys [m] does not bind keep their value. *)
Lemma dict_get_update_rev {V} (k : string) (d m : dict V) :
  dict_get k (dict_update d m) =
  match dict_get k (rev m) with
  | Some v => Some v
  | None => dict_get k d
  end.
Proof.
  unfold dict_update. revert d.
  induction m as [|[k0 v0] m IH] using rev_ind; intros d; simpl; [reflexivity|].
  rewrite fold_left_app, rev_app_distr. simpl.
  rewrite dict_get_set. destruct (String.eqb k k0); [reflexivity|].
  apply IH.
Qed.

Lemma dict_get_app {V} (k : string) (d1 d2 : dict V) :
  dict_get k (d1 ++ d2) =
  match dict_get k d1 with
  | Some v => Some v
  | None => dict_get k d2
  end.
Proof.
  induction d1 as [|[k0 v0] d1 IH]; simpl; [reflexivity|].
  destruct (String.eqb k k0); auto.
Qed.

Lemma dict_get_rev_nodup {V} (k : string) (m : dict V) :
  NoDup (keys m) -> dict_get k (rev m) = dict_get k m.
Proof.
  induction m as [|[k0 v0] m IH]; simpl; [reflexivity|].
  intros H. inversion H as [|? ? Hn Hd]; subst.
  rewrite dict_get_app, (IH Hd). simpl.
  destruct (String.eqb k k0) eqn:E.
  - apply String.eqb_eq in E. subst k0.
    apply dict_get_None_keys in Hn. now rewrite Hn.
  - destruct (dict_get k m); reflexivity.
Qed.

Lemma dict_get_update {V} (k : string) (d m : dict V) :
  NoDup (keys m) ->
  dict_get k (dict_update d m) =
  match dict_get k m with
  | Some v => Some v
  | None => dict_get k d
  end.
Proof.
  intros H. rewrite dict_get_update_rev, (dict_get_rev_nodup k m H). reflexivity.
Qed.

(** ** The calls as functions of the state file *)

Lemma call_create_task clock u ty d p s :
  call (create_task clock u ty d p) s =
  (make_task_id ty u,
   stamp (clock 1%nat)
     (set_tasks (dict_set (make_task_id ty u)
                   (mkTask ty PENDING p None None None (clock 0%nat) d None None)
                   (tasks s)) s)).
Proof. reflexivity. Qed.

Lemma call_complete_task clock id a st rd s :
  call (complete_task clock id a st rd) s =
  match dict_get id (tasks s) with
  | None => (false, s)
  | Some t =>
      if locked_by_differs t a then (false, s)
      else (true, stamp (clock 1%nat)
                    (set_tasks (dict_set id (complete st (clock 0%nat) rd t) (tasks s)) s))
  end.
Proof.
  unfold call, complete_task, bind, _load_state. simpl.
  destruct (dict_get id (tasks s)) as [t|]; [|reflexivity].
  destruct (locked_by_differs t a); reflexivity.
Qed.

Lemma call_release_task clock id a s :
  call (release_task clock id a) s =
  match dict_get id (tasks s) with
  | None => (false, s)
  | Some t =>
      if locked_by_differs t a then (false, s)
      else (true, stamp (clock 0%nat) (set_tasks (dict_set id (release t) (tasks s)) s))
  end.
Proof.
  unfold call, release_task, bind, _load_state. simpl.
  destruct (dict_get id (tasks s)) as [t|]; [|reflexivity].
  destruct (locked_by_differs t a); reflexivity.
Qed.

Lemma call_update_task_data clock id d s :
  call (update_task_data clock id d) s =
  match dict_get id (tasks s) with
  | None => (false, s)
  | Some t =>
      (true, stamp (clock 1%nat)
               (set_tasks (dict_set id (merge_data d (clock 0%nat) t) (tasks s)) s))
  end.
Proof.
  unfold call, update_task_data, bind, _load_state. simpl.
  destruct (dict_get id (tasks s)) as [t|]; reflexivity.
Qed.

Lemma call_update_workflow_metadata clock md s :
  call (update_workflow_metadata clock md) s =
  (tt, stamp (clock 0%nat) (set_metadata (dict_update (metadata s) md) s)).
Proof. reflexivity. Qed.

(** What a save leaves at the top of the document. *)
Lemma stamp_fields t s :
  workflow_type (stamp t s) = workflow_type s /\
  dict_get "last_updated" (metadata (stamp t s)) = Some (JStamp t).
Proof. unfold stamp. simpl. now rewrite dict_get_set. Qed.

(** *** The claim scan *)

Lemma first_claimable_Some tys ts l1 k t l2 :
  first_claimable tys ts = Some (l1, (k, t), l2) ->
  ts = l1 ++ (k, t) :: l2 /\ claimable tys t = true /\
  Forall (fun kv => claimable tys (snd kv) = false) l1.
Proof.
  revert l1. induction ts as [|[k0 t0] ts IH]; intros l1; simpl; [discriminate|].
  destruct (claimable tys t0) eqn:E.
  - intros [= <- <- <- <-]. auto.
  - destruct (first_claimable tys ts) as [[[l1' x] l2']|]; [|discriminate].
    intros [= <- -> <-]. destruct (IH l1' eq_refl) as (-> & Hc & Hf).
    repeat split; auto.
Qed.

Lemma first_claimable_None tys ts :
  first_claimable tys ts = None <->
  Forall (fun kv => claimable tys (snd kv) = false) ts.
Proof.
  induction ts as [|[k0 t0] ts IH]; simpl.
  - split; auto.
  - destruct (claimable tys t0) eqn:E.
    + split; [discriminate|]. intros H. inversion H; subst. simpl in *. congruence.
    + destruct (first_claimable tys ts) as [[[l1' x] l2']|].
      * split; [discriminate|]. intros H. inversion H; subst.
        apply IH in H3. discriminate.
      * split; auto. intros _. constructor; auto. now apply IH.
Qed.

Lemma first_claimable_at tys l1 k t l2 :
  Forall (fun kv => claimable tys (snd kv) = false) l1 ->
  claimable tys t = true ->
  first_claimable tys (l1 ++ (k, t) :: l2) = Some (l1, (k, t), l2).
Proof.
  induction 1 as [|[k0 t0] l1 H0 Hf IH]; intros Hc; simpl.
  - now rewrite Hc.
  - simpl in H0. rewrite H0, (IH Hc). reflexivity.
Qed.

Lemma claim_loop_spec clock a tys state done todo r :
  claim_loop clock a tys state done todo r =
  match first_claimable tys todo with
  | None => (None, r)
  | Some (l1, (k, t), l2) =>
      let t' := claim a (clock (tick r)) (clock (S (tick r))) t in
      (Some (k, t'),
       mkRun (stamp (clock (S (S (tick r))))
                (set_tasks (done ++ l1 ++ (k, t') :: l2) state))
             (S (S (S (tick r)))))
  end.
Proof.
  revert done. induction todo as [|[k0 t0] todo IH]; intros done; simpl.
  - reflexivity.
  - unfold claimable.
    destruct (status_eqb (status t0) PENDING); simpl.
    + destruct (filtered_out tys t0); simpl.
      * rewrite IH. destruct (first_claimable tys todo) as [[[l1 [k t]] l2]|]; [|reflexivity].
        simpl. now rewrite <- app_assoc.
      * reflexivity.
    + rewrite IH. destruct (first_claimable tys todo) as [[[l1 [k t]] l2]|]; [|reflexivity].
      simpl. now rewrite <- app_assoc.
Qed.

(** *** Timeout reclamation *)

Lemma check_tasks_map W C ts :
  fst (check_tasks W C ts) =
  map (fun kv => (fst kv, fst (check_task W C (snd kv)))) ts.
Proof.
  induction ts as [|[k t] ts IH]; simpl; [reflexivity|].
  destruct (check_task W C t) as [t' rel].
  destruct (check_tasks W C ts) as [ts' released]. simpl in *. now rewrite IH.
Qed.

Lemma check_task_kept W C t :
  snd (check_task W C t) = false -> fst (check_task W C t) = t.
Proof.
  unfold check_task.
  destruct (status t); try reflexivity.
  destruct (locked_at t) as [l|]; try reflexivity.
  destruct (timed_out W C l); [discriminate|reflexivity].
Qed.

Lemma check_tasks_none_released W C ts :
  snd (check_tasks W C ts) = [] -> fst (check_tasks W C ts) = ts.
Proof.
  induction ts as [|[k t] ts IH]; simpl; [reflexivity|].
  pose proof (check_task_kept W C t) as Hk.
  destruct (check_task W C t) as [t' rel].
  destruct (check_tasks W C ts) as [ts' released]. simpl in *.
  destruct rel; [discriminate|].
  intros H. rewrite (IH H), (Hk eq_refl). reflexivity.
Qed.

(** [get_next_task]: reclamation at the first reading of the clock, a save
    if anything was released, then the scan of the reclaimed collection. *)
Lemma call_get_next_task clock W a tys s :
  call (get_next_task clock W a tys) s =
  let released := snd (check_tasks W (clock 0%nat) (tasks s)) in
  let s1 := reclaimed W (clock 0%nat) s in
  let n := match released with [] => 1%nat | _ :: _ => 2%nat end in
  let s2 := match released with [] => s1 | _ :: _ => stamp (clock 1%nat) s1 end in
  match first_claimable tys (tasks s1) with
  | None => (None, match released with [] => s | _ :: _ => s2 end)
  | Some (l1, (k, t), l2) =>
      let t' := claim a (clock n) (clock (S n)) t in
      (Some (k, t'), stamp (clock (S (S n))) (set_tasks (l1 ++ (k, t') :: l2) s2))
  end.
Proof.
  unfold call, get_next_task, _check_timeouts, _save_state, reclaimed.
  unfold bind, _load_state, now, ret. simpl.
  destruct (check_tasks W (clock 0%nat) (tasks s)) as [ts released]; simpl.
  destruct released as [|x released]; simpl;
    rewrite claim_loop_spec; simpl;
    destruct (first_claimable tys ts) as [[[l1 [k t]] l2]|]; reflexivity.
Qed.

(** ** What a call does to each stored task *)

Lemma locked_by_differs_false t a :
  locked_by_differs t a = false <-> locked_by t = a.
Proof.
  unfold locked_by_differs. destruct (locked_by t) as [b|], a as [c|].
  - rewrite negb_false_iff, String.eqb_eq. split; congruence.
  - split; discriminate.
  - split; discriminate.
  - split; reflexivity.
Qed.

Lemma status_eqb_eq a b : status_eqb a b = true <-> a = b.
Proof. destruct a, b; simpl; split; congruence. Qed.

Lemma claimable_pending tys t : claimable tys t = true -> status t = PENDING.
Proof.
  unfold claimable. intros H. apply andb_true_iff in H.
  now apply status_eqb_eq.
Qed.

Lemma Forall2_same {A} (R : A -> A -> Prop) (l : list A) :
  (forall x, R x x) -> Forall2 R l l.
Proof. intros H. induction l; constructor; auto. Qed.

Lemma entry_edges_refl c d : Forall2 (entry_edge c) d d.
Proof.
  apply Forall2_same. intros x. split; [reflexivity|constructor].
Qed.

Lemma dict_set_edges c k v old d :
  dict_get k d = Some old -> task_edge c k old v ->
  Forall2 (entry_edge c) d (dict_set k v d).
Proof.
  intros Hg He. destruct (dict_get_split k old d Hg) as (l1 & l2 & -> & _ & Hs).
  rewrite Hs. apply Forall2_app; [apply entry_edges_refl|].
  constructor; [|apply entry_edges_refl]. split; [reflexivity|exact He].
Qed.

Lemma check_task_cases W C t :
  check_task W C t = (t, false) \/
  (exists l, status t = IN_PROGRESS /\ locked_at t = Some l /\
             timed_out W C l = true /\ check_task W C t = (expire t, true)).
Proof.
  unfold check_task.
  destruct (status t) eqn:Es; auto.
  destruct (locked_at t) as [l|] eqn:El; auto.
  destruct (timed_out W C l) eqn:Et; auto.
  right. exists l. auto.
Qed.

Lemma Forall2_compose {A} (P Q R : A -> A -> Prop) l1 l2 l3 :
  (forall x y z, P x y -> Q y z -> R x z) ->
  Forall2 P l1 l2 -> Forall2 Q l2 l3 -> Forall2 R l1 l3.
Proof.
  intros H H12. revert l3. induction H12; intros l3 H23; inversion H23; subst.
  - constructor.
  - constructor; eauto.
Qed.

(** The task collection after [get_next_task]. *)
Lemma tasks_get_next_task clock W a tys s :
  let ts1 := fst (check_tasks W (clock 0%nat) (tasks s)) in
  tasks (snd (call (get_next_task clock W a tys) s)) =
  match first_claimable tys ts1 with
  | None => ts1
  | Some (l1, (k, t), l2) =>
      let n := claim_reading W (clock 0%nat) s in
      l1 ++ (k, claim a (clock n) (clock (S n)) t) :: l2
  end.
Proof.
  rewrite call_get_next_task. unfold reclaimed, claim_reading. simpl.
  destruct (first_claimable tys (fst (check_tasks W (clock 0%nat) (tasks s))))
    as [[[l1 [k t]] l2]|]; simpl.
  - destruct (snd (check_tasks W (clock 0%nat) (tasks s))); reflexivity.
  - destruct (snd (check_tasks W (clock 0%nat) (tasks s))) eqn:E; simpl; [|reflexivity].
    now rewrite check_tasks_none_released.
Qed.

(** The result of [get_next_task]. *)
Lemma result_get_next_task clock W a tys s :
  fst (call (get_next_task clock W a tys) s) =
  match first_claimable tys (tasks (reclaimed W (clock 0%nat) s)) with
  | None => None
  | Some (_, (k, t), _) =>
      let n := claim_reading W (clock 0%nat) s in
      Some (k, claim a (clock n) (clock (S n)) t)
  end.
Proof.
  rewrite call_get_next_task. unfold reclaimed, claim_reading. simpl.
  destruct (first_claimable tys (fst (check_tasks W (clock 0%nat) (tasks s))))
    as [[[l1 [k t]] l2]|]; reflexivity.
Qed.

Lemma get_next_task_edges clock W a tys s :
  Forall2 (entry_edge (GetNextTask a tys)) (tasks s)
          (tasks (snd (call (get_next_task clock W a tys) s))).
Proof.
  rewrite tasks_get_next_task. simpl.
  set (C := clock 0%nat). rewrite check_tasks_map.
  set (ts1 := map _ (tasks s)).
  assert (H1 : Forall2 (fun x y => fst x = fst y /\
                          (snd y = snd x \/
                           exists l, status (snd x) = IN_PROGRESS /\
                                     locked_at (snd x) = Some l /\
                                     snd y = expire (snd x)))
                       (tasks s) ts1).
  { subst ts1. induction (tasks s) as [|[k t] ts IH]; simpl; constructor; auto.
    simpl. split; [reflexivity|].
    destruct (check_task_cases W C t) as [E|(l & Hs & Hl & _ & E)]; rewrite E; simpl; eauto. }
  destruct (first_claimable tys ts1) as [[[l1 [k t]] l2]|] eqn:Ef.
  - apply first_claimable_Some in Ef. destruct Ef as (E & Hc & _).
    apply claimable_pending in Hc. rewrite E in H1.
    eapply Forall2_compose; [|exact H1|].
    2:{ apply Forall2_app with
          (R := fun x y => fst x = fst y /\
                  (snd y = snd x \/
                   exists t1 t2, status (snd x) = PENDING /\ snd y = claim a t1 t2 (snd x))).
        - apply Forall2_same. auto.
        - constructor.
          + simpl. split; [reflexivity|]. right. eauto.
          + apply Forall2_same. auto. }
    intros [kx x] [ky y] [kz z]; simpl.
    intros [-> [->|(l & Hs & Hl & ->)]] [-> [->|(t1 & t2 & Hp & ->)]];
      (split; [reflexivity|]); simpl.
    + constructor.
    + now constructor.
    + econstructor; eauto.
    + econstructor; eauto.
  - eapply Forall2_impl; [|exact H1].
    intros [kx x] [ky y]; simpl. intros [-> [->|(l & Hs & Hl & ->)]];
      (split; [reflexivity|]); simpl.
    + constructor.
    + econstructor; eauto.
Qed.

(** Every call rewrites the stored tasks along [task_edge], keeps their
    keys and their order, and appends at most the task it creates. *)
Lemma exec_edges W clock c s :
  exists ts' extra,
    tasks (exec W clock c s) = ts' ++ extra /\
    Forall2 (entry_edge c) (tasks s) ts' /\
    Forall (appended c) extra.
Proof.
  destruct c as [u ty d p|a tys|id a st rd|id a|id d|md]; unfold exec.
  - rewrite call_create_task. simpl.
    destruct (dict_get (make_task_id ty u) (tasks s)) as [old|] eqn:E.
    + eexists; exists []. rewrite app_nil_r. repeat split; [|constructor].
      eapply dict_set_edges; [exact E|constructor].
    + rewrite (dict_set_absent _ _ _ E). eexists; eexists [_]. repeat split.
      * apply entry_edges_refl.
      * constructor; [|constructor]. simpl. eauto.
  - eexists; exists []. rewrite app_nil_r. repeat split; [|constructor].
    apply get_next_task_edges.
  - rewrite call_complete_task. eexists; exists []. rewrite app_nil_r.
    repeat split; [|constructor].
    destruct (dict_get id (tasks s)) as [t|] eqn:E; simpl; [|apply entry_edges_refl].
    destruct (locked_by_differs t a) eqn:El; simpl; [apply entry_edges_refl|].
    apply locked_by_differs_false in El.
    eapply dict_set_edges; [exact E|now constructor].
  - rewrite call_release_task. eexists; exists []. rewrite app_nil_r.
    repeat split; [|constructor].
    destruct (dict_get id (tasks s)) as [t|] eqn:E; simpl; [|apply entry_edges_refl].
    destruct (locked_by_differs t a) eqn:El; simpl; [apply entry_edges_refl|].
    apply locked_by_differs_false in El.
    eapply dict_set_edges; [exact E|now constructor].
  - rewrite call_update_task_data. eexists; exists []. rewrite app_nil_r.
    repeat split; [|constructor].
    destruct (dict_get id (tasks s)) as [t|] eqn:E; simpl; [|apply entry_edges_refl].
    eapply dict_set_edges; [exact E|constructor].
  - rewrite call_update_workflow_metadata. simpl. eexists; exists []. rewrite app_nil_r.
    repeat split; [apply entry_edges_refl|constructor].
Qed.

(** ** Invariants of the reachable states *)

Lemma entry_edges_get c id t ts ts' :
  Forall2 (entry_edge c) ts ts' -> dict_get id ts = Some t ->
  exists t', dict_get id ts' = Some t' /\ task_edge c id t t'.
Proof.
  induction 1 as [|[k x] [k' y] ts ts' [Hk He] _ IH]; simpl; [discriminate|].
  simpl in Hk, He. subst k'.
  destruct (String.eqb id k) eqn:E; [|exact IH].
  apply String.eqb_eq in E. subst k. intros [= ->]. eauto.
Qed.

Lemma exec_preserves (P : Task -> Prop) W clock c s :
  (forall k t t', task_edge c k t t' -> P t -> P t') ->
  (forall kv, appended c kv -> P (snd kv)) ->
  Forall (fun kv => P (snd kv)) (tasks s) ->
  Forall (fun kv => P (snd kv)) (tasks (exec W clock c s)).
Proof.
  intros He Ha Hs.
  destruct (exec_edges W clock c s) as (ts' & extra & -> & H2 & Hx).
  apply Forall_app. split.
  - clear Hx. induction H2 as [|x y ts ts' [_ Hxy] _ IH]; [constructor|].
    inversion Hs; subst. constructor; eauto.
  - eapply Forall_impl; [|exact Hx]. auto.
Qed.

Lemma edge_idle_unlocked c k t t' :
  task_edge c k t t' -> idle_unlocked t -> idle_unlocked t'.
Proof.
  unfold idle_unlocked.
  destruct 1; intros Hi; simpl; auto; try congruence.
  unfold complete. destruct (truthy rd); simpl; auto.
Qed.

Lemma edge_locked_in_progress c k t t' :
  completes_in_progress c = false ->
  task_edge c k t t' -> locked_in_progress t -> locked_in_progress t'.
Proof.
  unfold locked_in_progress.
  intros Hc He. destruct He; intros Hi; simpl; auto; try congruence.
  - split; congruence.
  - split; congruence.
  - unfold complete. destruct (truthy rd); simpl; intros ->; discriminate.
Qed.

Lemma appended_fresh c kv :
  appended c kv -> idle_unlocked (snd kv) /\ locked_in_progress (snd kv).
Proof.
  destruct c; simpl; try tauto. intros [_ [tm ->]].
  split; [intros _; auto | intros H; discriminate].
Qed.

Lemma reachable_idle_unlocked allowed s :
  reachable_by allowed s -> Forall (fun kv => idle_unlocked (snd kv)) (tasks s).
Proof.
  induction 1 as [clock|s W clock c _ IH _]; [constructor|].
  apply exec_preserves; auto.
  - intros k t t'. apply edge_idle_unlocked.
  - intros kv H. now apply appended_fresh in H.
Qed.

Lemma reachable_locked_in_progress s :
  reachable_by (fun c => completes_in_progress c = false) s ->
  Forall (fun kv => locked_in_progress (snd kv)) (tasks s).
Proof.
  induction 1 as [clock|s W clock c _ IH Hc]; [constructor|].
  apply exec_preserves; auto.
  - intros k t t'. now apply edge_locked_in_progress.
  - intros kv H. now apply appended_fresh in H.
Qed.

(** C2, as stated, fails: completing a claimed task with the status
    [IN_PROGRESS] leaves a task in progress with both lock fields empty. *)
Lemma C2_counterexample :
  ~ (forall s, reachable s -> lock_invariant s).
Proof.
  intros H.
  assert (Hr : reachable st_completed_in_progress)
    by (unfold reachable, st_completed_in_progress, st_claimed, st_created, st_init; reach).
  specialize (H _ Hr seed_id
                (mkTask "seed_dp" IN_PROGRESS None None None (Some 200) 10 [] (Some 100) None)).
  destruct H as [_ H]; [left; reflexivity|].
  destruct (H eq_refl) as [Hb _]. now apply Hb.
Qed.

(** C2 (amended): in every state reached from the initial empty store by
    calls among which no [complete_task] is given the status in_progress,
    every task has [locked_by] and [locked_at] both set if and only if its
    status is in_progress. *)
Theorem C2_lock_fields_iff_in_progress (s : State) :
  reachable_by (fun c => completes_in_progress c = false) s ->
  lock_invariant s.
Proof.
  intros Hr id t Hin.
  pose proof (reachable_idle_unlocked _ _ Hr) as H1.
  pose proof (reachable_locked_in_progress _ Hr) as H2.
  rewrite Forall_forall in H1, H2.
  specialize (H1 _ Hin). specialize (H2 _ Hin). simpl in H1, H2.
  unfold lock_fields_iff_in_progress. split; [|exact H2].
  intros [Hb _]. destruct (status t) eqn:E; try reflexivity;
    (destruct H1 as [H1 _]; congruence).
Qed.

Lemma C2_lock_fields_iff_in_progress_witness :
  lock_invariant st_completed.
Proof.
  apply C2_lock_fields_iff_in_progress.
  unfold st_completed, st_claimed, st_created, st_init. reach.
Defined.

(** ** The status edges *)

(** C3, as stated, fails: [create_task] does not check the id it draws,
    and when the id is already in use the stored task, here a completed
    one, is replaced by the new pending task.  (It fails as well on the
    calls of [none_agent_status_edges] below.) *)
Lemma C3_counterexample :
  ~ (forall s W clock c id t t',
        reachable s ->
        dict_get id (tasks s) = Some t ->
        dict_get id (tasks (exec W clock c s)) = Some t' ->
        status_step_ok (status t) (status t')).
Proof.
  intros H.
  assert (Hr : reachable st_completed)
    by (unfold reachable, st_completed, st_claimed, st_created, st_init; reach).
  specialize (H st_completed 24 (at_time 300) (CreateTask u0 "seed_dp" [] None) seed_id
                _ _ Hr eq_refl eq_refl).
  destruct H as [H _]. specialize (H eq_refl). discriminate.
Qed.

(** The other way out of the life cycle: [complete_task] and
    [release_task] compare [locked_by] with the agent id they are given,
    and for the agent id [None], which [data_pipeline.py] passes for a task
    nobody holds, the comparison passes on every such task: a pending task
    is completed without a claim, and a completed task is released to
    pending. *)
Example none_agent_status_edges :
  read_field status seed_id st_created = Some PENDING /\
  call (complete_task (at_time 50) seed_id None COMPLETED None) st_created
  = (true,
     mkState "generic" [("initialized_at", JStamp 0); ("last_updated", JStamp 50)]
             [(seed_id, mkTask "seed_dp" COMPLETED None None None (Some 50) 10 []
                               None None)]) /\
  read_field status seed_id st_completed = Some COMPLETED /\
  fst (call (release_task (at_time 300) seed_id None) st_completed) = true /\
  read_field status seed_id (exec 24 (at_time 300) (ReleaseTask seed_id None) st_completed)
  = Some PENDING.
Proof. repeat split. Qed.

(** C3 (amended): in every reachable state, whatever calls led to it, a
    call keeps every stored task, never changes a status that is
    completed, failed or cancelled, and never moves a pending task to one
    of these, unless it is a [create_task] whose drawn id is already a key
    of the store; this for the calls of [complete_task] and [release_task]
    whose agent id is a string, as their signatures have it. *)
Theorem C3_status_edges (s : State) (W : Z) (clock : nat -> Time) (c : Call)
        (id : string) (t : Task) :
  reachable s ->
  overwrites c s = false ->
  agent_named c = true ->
  dict_get id (tasks s) = Some t ->
  exists t', dict_get id (tasks (exec W clock c s)) = Some t' /\
             status_step_ok (status t) (status t').
Proof.
  intros Hr Ho Hn Hg.
  pose proof (reachable_idle_unlocked _ _ Hr) as Hi.
  rewrite Forall_forall in Hi. specialize (Hi _ (dict_get_In _ _ _ Hg)). simpl in Hi.
  destruct (exec_edges W clock c s) as (ts' & extra & -> & H2 & _).
  destruct (entry_edges_get _ _ _ _ _ H2 Hg) as (t' & Hg' & He).
  exists t'. split; [rewrite dict_get_app, Hg'; reflexivity|].
  unfold status_step_ok, idle_unlocked in *.
  destruct He; simpl.
  - split; [reflexivity|]. intros ->. reflexivity.
  - rewrite H. split; discriminate.
  - rewrite H. split; [discriminate|reflexivity].
  - rewrite H. split; discriminate.
  - destruct a as [name|]; [|discriminate Hn].
    assert (status t = IN_PROGRESS) as ->.
    { destruct (status t) eqn:E; try reflexivity;
        (destruct Hi as [Hi _]; [discriminate|congruence]). }
    split; discriminate.
  - destruct a as [name|]; [|discriminate Hn].
    assert (status t = IN_PROGRESS) as ->.
    { destruct (status t) eqn:E; try reflexivity;
        (destruct Hi as [Hi _]; [discriminate|congruence]). }
    split; discriminate.
  - split; [reflexivity|]. intros ->. reflexivity.
  - simpl in Ho. unfold dict_mem in Ho. rewrite Hg in Ho. discriminate.
Qed.

Lemma C3_status_edges_witness :
  exists t',
    dict_get seed_id
      (tasks (exec 24 (at_time 300)
                   (CompleteTask seed_id (Some "agent-1") FAILED None) st_completed)) = Some t' /\
    status_step_ok COMPLETED (status t').
Proof.
  apply (C3_status_edges st_completed 24 (at_time 300)
           (CompleteTask seed_id (Some "agent-1") FAILED None) seed_id
           (mkTask "seed_dp" COMPLETED None None None (Some 200) 10 [] (Some 100) None)).
  - unfold reachable, st_completed, st_claimed, st_created, st_init. reach.
  - reflexivity.
  - reflexivity.
  - reflexivity.
Defined.

(** ** Release and re-claim *)

(** C1: a task claimed at [T0], released by its holder and claimed again
    at [T1].  After the release [task_started_at] still reads [T0]; the
    second claim assigns [task_started_at] again, so that afterwards it
    reads [T1], as [locked_at] does, and not [T0]. *)
Theorem C1_reclaim_overwrites_task_started_at (W : Z) (T0 Tr T1 : Time) :
  let s2 := exec W (at_time T0) (GetNextTask "agent-1" None) st_created in
  let s3 := exec W (at_time Tr) (ReleaseTask seed_id (Some "agent-1")) s2 in
  let s4 := exec W (at_time T1) (GetNextTask "agent-1" None) s3 in
  read_field task_started_at seed_id s2 = Some (Some T0) /\
  fst (call (release_task (at_time Tr) seed_id (Some "agent-1")) s2) = true /\
  read_field status seed_id s3 = Some PENDING /\
  read_field task_started_at seed_id s3 = Some (Some T0) /\
  read_field status seed_id s4 = Some IN_PROGRESS /\
  read_field locked_at seed_id s4 = Some (Some T1) /\
  read_field task_started_at seed_id s4 = Some (Some T1).
Proof. repeat split; reflexivity. Qed.

(** The same at any state: the task [get_next_task] returns carries the
    readings of the clock made at the claim, whatever [task_started_at]
    held before. *)
Lemma get_next_task_started_at clock W a tys s id t :
  fst (call (get_next_task clock W a tys) s) = Some (id, t) ->
  exists n, locked_at t = Some (clock n) /\ task_started_at t = Some (clock (S n)).
Proof.
  rewrite result_get_next_task.
  destruct (first_claimable tys (tasks (reclaimed W (clock 0%nat) s)))
    as [[[l1 [k x]] l2]|]; simpl; [|discriminate].
  intros [= <- <-]. eexists. split; reflexivity.
Qed.

(** ** Results of [complete_task], [release_task] and [update_task_data] *)

(** The scenario of the specification: the claimed task is in progress and
    locked by "agent-1"; "agent-2" cannot complete it; "agent-1" can, and
    the result is merged into [data]. *)
Example completion_scenario :
  fst (call (get_next_task (at_time 100) 24 "agent-1" None) st_created)
  = Some (seed_id, mkTask "seed_dp" IN_PROGRESS None (Some "agent-1") (Some 100) None 10 []
                          (Some 100) None) /\
  fst (call (complete_task (at_time 200) seed_id (Some "agent-2") COMPLETED None) st_claimed)
  = false /\
  call (complete_task (at_time 200) seed_id (Some "agent-1") COMPLETED (Some [("result", JNum 1)]))
       st_claimed
  = (true,
     mkState "generic" [("initialized_at", JStamp 0); ("last_updated", JStamp 200)]
             [(seed_id, mkTask "seed_dp" COMPLETED None None None (Some 200) 10
                               [("result", JNum 1)] (Some 100) None)]).
Proof. repeat split. Qed.




(** C7: when [complete_task], [release_task] or [update_task_data] returns
    [False], the state file after the call is the state file before it. *)
Theorem C7_failed_call_leaves_file (clock : nat -> Time) (id : string)
        (a : option string) (st : TaskStatus) (rd : option (dict json)) (d : dict json) (s : State) :
  (fst (call (complete_task clock id a st rd) s) = false ->
   snd (call (complete_task clock id a st rd) s) = s) /\
  (fst (call (release_task clock id a) s) = false ->
   snd (call (release_task clock id a) s) = s) /\
  (fst (call (update_task_data clock id d) s) = false ->
   snd (call (update_task_data clock id d) s) = s).
Proof.
  rewrite call_complete_task, call_release_task, call_update_task_data.
  destruct (dict_get id (tasks s)) as [t|]; simpl.
  - destruct (locked_by_differs t a); simpl; repeat split; auto; discriminate.
  - repeat split; auto.
Qed.

Lemma C7_failed_call_leaves_file_witness :
  snd (call (complete_task (at_time 200) seed_id (Some "agent-2") COMPLETED None) st_claimed)
  = st_claimed /\
  snd (call (release_task (at_time 200) seed_id (Some "agent-2")) st_claimed) = st_claimed /\
  snd (call (update_task_data (at_time 200) "seed_dp_ffffffff" [("result", JNum 1)])
            st_claimed) = st_claimed.
Proof.
  split; [|split].
  - apply (C7_failed_call_leaves_file (at_time 200) seed_id (Some "agent-2") COMPLETED None []
                                      st_claimed).
    reflexivity.
  - apply (C7_failed_call_leaves_file (at_time 200) seed_id (Some "agent-2") COMPLETED None []
                                      st_claimed).
    reflexivity.
  - apply (C7_failed_call_leaves_file (at_time 200) "seed_dp_ffffffff" (Some "agent-2") COMPLETED
                                      None [("result", JNum 1)] st_claimed).
    reflexivity.
Defined.

(** ** Task ids *)

Lemma length_append (a b : string) :
  String.length (a ++ b)%string = (String.length a + String.length b)%nat.
Proof. induction a; simpl; auto. Qed.

(** Two concatenations whose second parts have the same length are equal
    only if their parts are. *)
Lemma append_inj (a b s1 s2 : string) :
  String.length s1 = String.length s2 ->
  (a ++ s1)%string = (b ++ s2)%string -> a = b /\ s1 = s2.
Proof.
  revert b. induction a as [|c a IH]; intros [|c' b] Hl H; simpl in H.
  - auto.
  - exfalso. apply (f_equal String.length) in H. simpl in H.
    rewrite length_append in H. lia.
  - exfalso. apply (f_equal String.length) in H. simpl in H.
    rewrite length_append in H. lia.
  - injection H as -> H. destruct (IH b Hl H) as [-> ->]. auto.
Qed.

Lemma hexchar_inj (x y : hexdigit) : hexchar x = hexchar y -> x = y.
Proof. destruct x, y; simpl; intros H; try reflexivity; discriminate H. Qed.

Lemma hex_inj (u v : hex8) : hex u = hex v -> u = v.
Proof.
  destruct u, v. unfold hex; simpl. intros H.
  injection H as H1 H2 H3 H4 H5 H6 H7 H8.
  apply hexchar_inj in H1, H2, H3, H4, H5, H6, H7, H8. congruence.
Qed.

Lemma hex_length (u : hex8) : String.length (hex u) = 8%nat.
Proof. reflexivity. Qed.

(** The id determines the type and the suffix it was made of. *)
Lemma make_task_id_inj ty1 u1 ty2 u2 :
  make_task_id ty1 u1 = make_task_id ty2 u2 -> ty1 = ty2 /\ u1 = u2.
Proof.
  unfold make_task_id. intros H.
  apply append_inj in H; [|reflexivity].
  destruct H as [-> H].
  apply (f_equal (fun x => match x with String _ r => r | EmptyString => x end)) in H.
  apply hex_inj in H. auto.
Qed.

Lemma create_tasks_ids reqs s :
  fst (create_tasks reqs s) =
  map (fun q => make_task_id (c_type q) (c_uuid q)) reqs.
Proof.
  revert s. induction reqs as [|q reqs IH]; intros s; [reflexivity|].
  cbn [create_tasks map]. rewrite call_create_task.
  match goal with
  | |- context [create_tasks reqs ?x] =>
      specialize (IH x); destruct (create_tasks reqs x) as [ids s'']
  end.
  simpl in *. now rewrite IH.
Qed.

(** C8, as stated, fails: the suffix is drawn at random and not checked,
    and two calls for the same type that draw the same suffix return the
    same id. *)
Lemma C8_counterexample :
  ~ (forall reqs s, NoDup (fst (create_tasks reqs s))).
Proof.
  intros H.
  specialize (H [mkCreate (at_time 10) u0 "seed_dp" [] None;
                 mkCreate (at_time 20) u0 "seed_dp" [] None] st_init).
  inversion H as [|x l Hn _]; subst. apply Hn. left. reflexivity.
Qed.

(** C8 (amended): for every sequence of [create_task] calls in which no
    two calls for the same task type draw the same random suffix, the
    returned ids are pairwise distinct; and every call, whatever the
    [parent_id] it is given, stores under the id it returns a task that is
    pending, with [locked_by] and [locked_at] empty and [completed_at]
    unset. *)
Theorem C8_created_tasks (reqs : list CreateArgs) (s : State) :
  NoDup (map (fun q => (c_type q, c_uuid q)) reqs) ->
  NoDup (fst (create_tasks reqs s)) /\
  forall clock u ty d p s0,
    exists t,
      dict_get (fst (call (create_task clock u ty d p) s0))
               (tasks (snd (call (create_task clock u ty d p) s0))) = Some t /\
      type t = ty /\ status t = PENDING /\ parent_id t = p /\
      locked_by t = None /\ locked_at t = None /\ completed_at t = None.
Proof.
  intros Hn. split.
  - rewrite create_tasks_ids.
    induction reqs as [|q reqs IH]; simpl; [constructor|].
    simpl in Hn. inversion Hn as [|x l Hx Hl]; subst.
    constructor; [|auto].
    intros Hin. apply Hx. apply in_map_iff in Hin.
    destruct Hin as (q' & Hq & Hin). apply make_task_id_inj in Hq.
    destruct Hq as [Ht Hu]. apply in_map_iff. exists q'. split; [|exact Hin].
    congruence.
  - intros clock u ty d p s0. rewrite call_create_task. simpl.
    rewrite dict_get_set, String.eqb_refl. eexists. repeat split.
Qed.

Lemma C8_created_tasks_witness :
  NoDup (fst (create_tasks [mkCreate (at_time 10) u0 "seed_dp" [] None;
                            mkCreate (at_time 20) u0 "review" [] (Some seed_id)]
                           st_init)).
Proof.
  apply (C8_created_tasks [mkCreate (at_time 10) u0 "seed_dp" [] None;
                           mkCreate (at_time 20) u0 "review" [] (Some seed_id)] st_init).
  simpl. constructor.
  - intros [H|[]]. discriminate H.
  - constructor; [intros []|constructor].
Defined.

(** ** The claim scan of [get_next_task] *)

Lemma str_in_In x xs : str_in x xs = true <-> In x xs.
Proof.
  unfold str_in. rewrite existsb_exists. split.
  - intros (y & Hy & E). apply String.eqb_eq in E. now subst.
  - intros H. exists x. split; [exact H|apply String.eqb_refl].
Qed.

Lemma filtered_out_false tys t :
  filtered_out tys t = false <-> type_matches tys (type t).
Proof.
  unfold filtered_out, type_matches.
  destruct tys as [[|ty l]|]; try (simpl; tauto).
  cbn [truthy andb]. rewrite negb_false_iff. apply str_in_In.
Qed.

Lemma claimable_true tys t :
  claimable tys t = true <-> status t = PENDING /\ type_matches tys (type t).
Proof.
  unfold claimable.
  rewrite andb_true_iff, negb_true_iff, status_eqb_eq, filtered_out_false.
  reflexivity.
Qed.

Lemma claimable_false tys t :
  claimable tys t = false <-> ~ (status t = PENDING /\ type_matches tys (type t)).
Proof.
  rewrite <- claimable_true. destruct (claimable tys t); split; congruence.
Qed.

Lemma not_claimable_all tys (l : dict Task) :
  Forall (fun kv => ~ (status (snd kv) = PENDING /\ type_matches tys (type (snd kv)))) l ->
  Forall (fun kv => claimable tys (snd kv) = false) l.
Proof.
  apply Forall_impl. intros kv. apply claimable_false.
Qed.






(** ** The empty type filter *)

Lemma first_claimable_empty_filter ts :
  first_claimable (Some []) ts = first_claimable None ts.
Proof.
  induction ts as [|[k t] ts IH]; simpl; [reflexivity|]. now rewrite IH.
Qed.

Lemma check_task_pending W C t :
  status t = PENDING -> fst (check_task W C t) = t.
Proof. unfold check_task. now intros ->. Qed.

(** C9: [get_next_task] with the empty list of types is [get_next_task]
    with no list, result and state file alike; and when the store holds a
    pending task, the call claims the first pending task of the collection
    left by the timeout reclamation, of whatever type: that task is
    returned with its id, in progress, locked by the caller at the time of
    the claim and with its other fields as they were, it replaces the
    pending one in the collection, whose other items stay as the
    reclamation left them, and the file is saved with a new
    [last_updated]. *)
Theorem C9_empty_filter (clock : nat -> Time) (W : Z) (a : string) (s : State) :
  call (get_next_task clock W a (Some [])) s = call (get_next_task clock W a None) s /\
  ((exists id t, In (id, t) (tasks s) /\ status t = PENDING) ->
   exists l1 id t l2,
     tasks (reclaimed W (clock 0%nat) s) = l1 ++ (id, t) :: l2 /\
     Forall (fun kv => status (snd kv) <> PENDING) l1 /\
     status t = PENDING /\
     let n := claim_reading W (clock 0%nat) s in
     let r := call (get_next_task clock W a (Some [])) s in
     exists t',
       fst r = Some (id, t') /\
       tasks (snd r) = l1 ++ (id, t') :: l2 /\
       status t' = IN_PROGRESS /\ locked_by t' = Some a /\
       locked_at t' = Some (clock n) /\ task_started_at t' = Some (clock (S n)) /\
       type t' = type t /\ parent_id t' = parent_id t /\ data t' = data t /\
       created_at t' = created_at t /\ completed_at t' = completed_at t /\
       updated_at t' = updated_at t /\
       workflow_type (snd r) = workflow_type s /\
       dict_get "last_updated" (metadata (snd r)) = Some (JStamp (clock (S (S n))))).
Proof.
  split.
  - rewrite !call_get_next_task. simpl.
    rewrite first_claimable_empty_filter. reflexivity.
  - intros (id & t & Hin & Hp).
    destruct (first_claimable (Some []) (tasks (reclaimed W (clock 0%nat) s)))
      as [[[l1 [k x]] l2]|] eqn:E.
    + pose proof E as E'.
      apply first_claimable_Some in E'. destruct E' as (E' & Hc & Hf).
      exists l1, k, x, l2. split; [exact E'|]. split; [|split].
      * eapply Forall_impl; [|exact Hf]. intros kv H. apply claimable_false in H.
        intros Hs. apply H. split; [exact Hs|exact I].
      * now apply claimable_pending in Hc.
      * cbv zeta. rewrite call_get_next_task. cbv zeta. rewrite E.
        unfold claim_reading.
        eexists. split; [reflexivity|]. split; [reflexivity|].
        repeat (split; [reflexivity|]).
        cbn [snd]. split; [|apply stamp_fields].
        rewrite (proj1 (stamp_fields _ _)).
        destruct (snd (check_tasks W (clock 0%nat) (tasks s))); reflexivity.
    + exfalso. apply first_claimable_None in E. rewrite Forall_forall in E.
      specialize (E (id, fst (check_task W (clock 0%nat) t))).
      simpl in E. rewrite check_task_pending in E by exact Hp.
      assert (Hc : claimable (Some []) t = true) by (apply claimable_true; simpl; auto).
      rewrite E in Hc; [discriminate Hc|].
      unfold reclaimed. simpl. rewrite check_tasks_map.
      apply in_map_iff. exists (id, t). simpl.
      rewrite check_task_pending by exact Hp. auto.
Qed.

Lemma C9_empty_filter_witness :
  exists l1 id t l2,
    tasks (reclaimed 24 100 st_created) = l1 ++ (id, t) :: l2 /\
    Forall (fun kv => status (snd kv) <> PENDING) l1 /\
    status t = PENDING /\
    exists t',
      fst (call (get_next_task (at_time 100) 24 "agent-1" (Some [])) st_created)
      = Some (id, t') /\
      tasks (snd (call (get_next_task (at_time 100) 24 "agent-1" (Some [])) st_created))
      = l1 ++ (id, t') :: l2 /\
      status t' = IN_PROGRESS /\ locked_by t' = Some "agent-1" /\
      locked_at t' = Some 100 /\ task_started_at t' = Some 100 /\
      type t' = type t /\ parent_id t' = parent_id t /\ data t' = data t /\
      created_at t' = created_at t /\ completed_at t' = completed_at t /\
      updated_at t' = updated_at t /\
      workflow_type (snd (call (get_next_task (at_time 100) 24 "agent-1" (Some []))
                               st_created)) = workflow_type st_created /\
      dict_get "last_updated"
               (metadata (snd (call (get_next_task (at_time 100) 24 "agent-1" (Some []))
                                    st_created))) = Some (JStamp 100).
Proof.
  apply (C9_empty_filter (at_time 100) 24 "agent-1" st_created).
  eexists _, _. split; [left; reflexivity|reflexivity].
Defined.

(** ** Timeout reclamation *)

Lemma check_task_timed_out W C t L :
  status t = IN_PROGRESS -> locked_at t = Some L -> W * hour < C - L ->
  check_task W C t = (expire t, true).
Proof.
  intros Hs Hl Hlt. unfold check_task, timed_out. rewrite Hs, Hl.
  apply Z.ltb_lt in Hlt. now rewrite Hlt.
Qed.

Lemma check_tasks_released W C ts i id t :
  nth_error ts i = Some (id, t) -> snd (check_task W C t) = true ->
  snd (check_tasks W C ts) <> [].
Proof.
  revert i. induction ts as [|[k x] ts IH]; intros [|i]; simpl; try discriminate.
  - intros [= -> ->] H. destruct (check_task W C t) as [t' rel].
    destruct (check_tasks W C ts) as [ts' released]. simpl in *. subst rel. discriminate.
  - intros Hn H. specialize (IH i Hn H).
    destruct (check_task W C x) as [x' rel].
    destruct (check_tasks W C ts) as [ts' released]. simpl in *.
    destruct rel; [discriminate|exact IH].
Qed.

Lemma nth_error_replace {A} (l1 l2 : list A) (x y z : A) (i : nat) :
  nth_error (l1 ++ x :: l2) i = Some z ->
  nth_error (l1 ++ y :: l2) i = Some z \/
  (z = x /\ nth_error (l1 ++ y :: l2) i = Some y).
Proof.
  revert i. induction l1 as [|h l1 IH]; intros [|i]; simpl; auto.
  intros [= ->]. auto.
Qed.

Lemma nth_error_prefix_all {A} (P : A -> Prop) (l1 l2 : list A) :
  (forall j x, (j < List.length l1)%nat -> nth_error (l1 ++ l2) j = Some x -> P x) ->
  Forall P l1.
Proof.
  intros H. apply Forall_forall. intros x Hin.
  apply In_nth_error in Hin. destruct Hin as [j Hj].
  apply (H j).
  - apply nth_error_Some. congruence.
  - rewrite nth_error_app1; [exact Hj|]. apply nth_error_Some. congruence.
Qed.

(** C4: let the timeout be the default 24 hours, or any other in
    [timeout_in_range]; let [get_next_task] read the time [C] and let a
    stored task be in progress with a [locked_at] more than
    [task_timeout_hours] hours before [C].  In the collection the claim scan works on, the task is pending,
    its [locked_by] and [locked_at] are cleared and [task_started_at] is
    removed.  The scan claims the first claimable task of that collection:
    if the type of the reclaimed task passes the filter the call claims a
    task, and it claims this very task when no task before it is
    claimable.  In the state file after the call the task is the
    reclaimed one or its claim. *)
Theorem C4_timeout_reclamation (clock : nat -> Time) (W : Z) (a : string)
        (tys : option (list string)) (s : State)
        (i : nat) (id : string) (t : Task) (L : Time) :
  timeout_in_range W ->
  nth_error (tasks s) i = Some (id, t) ->
  status t = IN_PROGRESS ->
  locked_at t = Some L ->
  W * hour < clock 0%nat - L ->
  let s1 := reclaimed W (clock 0%nat) s in
  let r := call (get_next_task clock W a tys) s in
  let t' := claim a (clock 2%nat) (clock 3%nat) (expire t) in
  timeout_in_range 24 /\
  nth_error (tasks s1) i = Some (id, expire t) /\
  (status (expire t) = PENDING /\ locked_by (expire t) = None /\
   locked_at (expire t) = None /\ task_started_at (expire t) = None) /\
  fst r = match first_claimable tys (tasks s1) with
          | Some (_, (k, x), _) => Some (k, claim a (clock 2%nat) (clock 3%nat) x)
          | None => None
          end /\
  (type_matches tys (type t) -> fst r <> None) /\
  (type_matches tys (type t) ->
   (forall j kv, (j < i)%nat -> nth_error (tasks s1) j = Some kv ->
                 ~ (status (snd kv) = PENDING /\ type_matches tys (type (snd kv)))) ->
   fst r = Some (id, t')) /\
  (nth_error (tasks (snd r)) i = Some (id, expire t) \/
   nth_error (tasks (snd r)) i = Some (id, t')).
Proof.
  intros _ Hn Hs Hl Hlt s1 r t'.
  split; [split; [lia|reflexivity]|].
  pose proof (check_task_timed_out W _ t L Hs Hl Hlt) as Hc.
  assert (H1 : nth_error (tasks s1) i = Some (id, expire t)).
  { unfold s1, reclaimed. simpl. rewrite check_tasks_map.
    rewrite (map_nth_error _ _ _ Hn). simpl. now rewrite Hc. }
  assert (Hr : claim_reading W (clock 0%nat) s = 2%nat).
  { unfold claim_reading.
    pose proof (check_tasks_released W (clock 0%nat) _ _ _ _ Hn) as Hne.
    rewrite Hc in Hne. specialize (Hne eq_refl).
    destruct (snd (check_tasks W (clock 0%nat) (tasks s))); [congruence|reflexivity]. }
  assert (Hres : fst r = match first_claimable tys (tasks s1) with
                         | Some (_, (k, x), _) =>
                             Some (k, claim a (clock 2%nat) (clock 3%nat) x)
                         | None => None
                         end).
  { unfold r. rewrite result_get_next_task, Hr. reflexivity. }
  assert (Hcl : type_matches tys (type t) -> claimable tys (expire t) = true).
  { intros Hm. apply claimable_true. auto. }
  split; [exact H1|]. split; [repeat split|]. split; [exact Hres|].
  split; [|split].
  - intros Hm. rewrite Hres.
    destruct (first_claimable tys (tasks s1)) as [[[l1 [k x]] l2]|] eqn:E; [discriminate|].
    apply first_claimable_None in E. rewrite Forall_forall in E.
    apply nth_error_In in H1. apply E in H1. simpl in H1.
    rewrite (Hcl Hm) in H1. discriminate H1.
  - intros Hm Hbefore. rewrite Hres.
    destruct (nth_error_split _ _ H1) as (l1 & l2 & E & Hlen).
    rewrite E, first_claimable_at; [reflexivity| |exact (Hcl Hm)].
    apply not_claimable_all. apply nth_error_prefix_all with (l2 := (id, expire t) :: l2).
    intros j kv Hj Hjn. apply (Hbefore j); [lia|]. now rewrite E.
  - unfold r. rewrite tasks_get_next_task, Hr. simpl.
    change (fst (check_tasks W (clock 0%nat) (tasks s))) with (tasks s1).
    destruct (first_claimable tys (tasks s1)) as [[[l1 [k x]] l2]|] eqn:E; [|auto].
    apply first_claimable_Some in E. destruct E as (E & _ & _).
    rewrite E in H1.
    destruct (nth_error_replace l1 l2 _ (k, claim a (clock 2%nat) (clock 3%nat) x) _ _ H1)
      as [H|[E2 H]]; [auto|].
    injection E2 as E3 E4. subst k x. right. exact H.
Qed.

(** [seed_id] claimed at time 100 and still in progress at the call made
    25 hours later. *)
Lemma C4_timeout_reclamation_witness :
  fst (call (get_next_task (at_time (100 + 25 * hour)) 24 "agent-2" None) st_claimed)
  = Some (seed_id,
          claim "agent-2" (100 + 25 * hour) (100 + 25 * hour)
                (expire (mkTask "seed_dp" IN_PROGRESS None (Some "agent-1") (Some 100)
                                None 10 [] (Some 100) None))).
Proof.
  apply (C4_timeout_reclamation (at_time (100 + 25 * hour)) 24 "agent-2" None st_claimed
                                0 seed_id _ 100).
  - split; [lia|reflexivity].
  - reflexivity.
  - reflexivity.
  - reflexivity.
  - unfold at_time, hour. lia.
  - exact I.
  - intros j kv Hj. lia.
Defined.

(** ** The frame of [update_task_data] *)

(** C10: a successful [update_task_data] rewrites the named task and
    nothing else in the collection; in that task it merges the given
    mapping into [data] (the keys of the mapping take its values, the other
    keys keep theirs) and sets [updated_at], and it leaves the type, the
    status, the parent, the lock fields and the other timestamps as they
    were; in the rest of the document it sets [last_updated] in the
    metadata and nothing more. *)
Theorem C10_update_task_data_frame (clock : nat -> Time) (id : string)
        (d : dict json) (s : State) (t : Task) :
  dict_get id (tasks s) = Some t ->
  NoDup (keys d) ->
  let r := call (update_task_data clock id d) s in
  exists t',
    fst r = true /\
    (exists l1 l2, tasks s = l1 ++ (id, t) :: l2 /\
                   tasks (snd r) = l1 ++ (id, t') :: l2) /\
    (forall k, dict_get k (data t') =
               match dict_get k d with
               | Some v => Some v
               | None => dict_get k (data t)
               end) /\
    updated_at t' = Some (clock 0%nat) /\
    (type t' = type t /\ status t' = status t /\ parent_id t' = parent_id t /\
     locked_by t' = locked_by t /\ locked_at t' = locked_at t /\
     completed_at t' = completed_at t /\ created_at t' = created_at t /\
     task_started_at t' = task_started_at t) /\
    metadata (snd r) = dict_set "last_updated" (JStamp (clock 1%nat)) (metadata s) /\
    workflow_type (snd r) = workflow_type s.
Proof.
  intros Hg Hd r. unfold r. rewrite call_update_task_data, Hg. simpl.
  exists (merge_data d (clock 0%nat) t). split; [reflexivity|]. split.
  - destruct (dict_get_split _ _ _ Hg) as (l1 & l2 & E & _ & Hs).
    exists l1, l2. split; [exact E|apply Hs].
  - split.
    + intros k. simpl. now apply dict_get_update.
    + repeat split.
Qed.

Lemma C10_update_task_data_frame_witness :
  exists t',
    dict_get seed_id
      (tasks (snd (call (update_task_data (at_time 150) seed_id [("result", JNum 1)])
                        st_claimed))) = Some t' /\
    dict_get "result" (data t') = Some (JNum 1) /\
    updated_at t' = Some 150 /\
    status t' = IN_PROGRESS /\ locked_by t' = Some "agent-1".
Proof.
  destruct (C10_update_task_data_frame (at_time 150) seed_id [("result", JNum 1)] st_claimed
              (mkTask "seed_dp" IN_PROGRESS None (Some "agent-1") (Some 100) None 10 []
                      (Some 100) None))
    as (t' & _ & (l1 & l2 & E1 & E2) & Hd & Hu & (_ & Hs & _ & Hl & _) & _).
  - reflexivity.
  - simpl. constructor; [intros []|constructor].
  - exists t'. split; [|split; [|split; [|split]]].
    + destruct l1 as [|x l1]; [|destruct l1; discriminate E1].
      injection E1 as <-. rewrite E2. reflexivity.
    + rewrite Hd. reflexivity.
    + exact Hu.
    + exact Hs.
    + exact Hl.
Defined.

(** [updated_at] is written by [update_task_data] alone: a task is created
    without it and the other calls keep it. *)
Lemma updated_at_kept c k t t' :
  task_edge c k t t' ->
  match c with
  | UpdateTaskData _ _ | CreateTask _ _ _ _ => True
  | _ => updated_at t' = updated_at t
  end.
Proof.
  destruct 1; simpl; auto.
  - now destruct c.
  - unfold complete. destruct (truthy rd); reflexivity.
Qed.

(** * Further properties of the task manager *)

(** ** Keys of the collection *)

Lemma dict_set_keys {V} (k : string) (v : V) (d : dict V) :
  keys (dict_set k v d) = if dict_mem k d then keys d else keys d ++ [k].
Proof.
  unfold dict_mem. induction d as [|[k0 v0] d IH]; simpl; [reflexivity|].
  destruct (String.eqb k k0) eqn:E; simpl.
  - apply String.eqb_eq in E. now subst.
  - rewrite IH. destruct (dict_get k d); reflexivity.
Qed.

Lemma entry_edges_keys c ts ts' :
  Forall2 (entry_edge c) ts ts' -> keys ts = keys ts'.
Proof.
  induction 1 as [|x y ts ts' [Hk _] _ IH]; simpl; [reflexivity|]. now rewrite Hk, IH.
Qed.

Lemma dict_mem_keys {V} (k : string) (d : dict V) :
  dict_mem k d = true <-> In k (keys d).
Proof.
  unfold dict_mem. pose proof (dict_get_None_keys k d) as H.
  destruct (dict_get k d).
  - split; [|reflexivity]. intros _.
    destruct (in_dec string_dec k (keys d)) as [Hin|Hn]; [exact Hin|].
    apply H in Hn. discriminate Hn.
  - split; [discriminate|]. intros Hin. exfalso. now apply H.
Qed.

(** The keys after a call: the keys before, in their order, followed by
    the id of the task a [create_task] has added. *)
Lemma keys_exec W clock c s :
  keys (tasks (exec W clock c s)) = keys (tasks s) \/
  exists u ty d p,
    c = CreateTask u ty d p /\ dict_get (make_task_id ty u) (tasks s) = None /\
    keys (tasks (exec W clock c s)) = keys (tasks s) ++ [make_task_id ty u].
Proof.
  destruct (exec_edges W clock c s) as (ts' & extra & E & H2 & Hx).
  assert (Hother : (forall kv, ~ appended c kv) ->
                   keys (tasks (exec W clock c s)) = keys (tasks s)).
  { intros Hna. destruct extra as [|x extra].
    - rewrite E, app_nil_r. symmetry. exact (entry_edges_keys _ _ _ H2).
    - exfalso. inversion Hx as [|? ? Hf _]; subst. exact (Hna _ Hf). }
  destruct c as [u ty d p|a tys|id a st rd|id a|id d|md];
    try (left; apply Hother; intros kv Hkv; exact Hkv).
  clear Hother E H2 Hx ts' extra. unfold exec. rewrite call_create_task. simpl.
  rewrite dict_set_keys. unfold dict_mem.
  destruct (dict_get (make_task_id ty u) (tasks s)) eqn:E; [now left|].
  right. exists u, ty, d, p. auto.
Qed.

Lemma reachable_keys_nodup allowed s :
  reachable_by allowed s -> NoDup (keys (tasks s)).
Proof.
  induction 1 as [clock|s W clock c _ IH _]; [constructor|].
  destruct (keys_exec W clock c s) as [->|(u & ty & d & p & _ & Hn & ->)]; [exact IH|].
  apply NoDup_app; [exact IH| |].
  - constructor; [intros []|constructor].
  - intros x Hx [<-|[]]. now apply dict_get_None_keys in Hn.
Qed.

(** Under distinct keys an entry is found by its key. *)
Lemma nodup_keys_get {V} (k : string) (v : V) (d : dict V) :
  NoDup (keys d) -> In (k, v) d -> dict_get k d = Some v.
Proof.
  induction d as [|[k0 v0] d IH]; simpl; [intros _ []|].
  intros Hn [[= -> ->]|Hin].
  - now rewrite String.eqb_refl.
  - inversion Hn as [|? ? Hk Hd]; subst.
    destruct (String.eqb k k0) eqn:E; [|auto].
    apply String.eqb_eq in E. subst k0. exfalso. apply Hk.
    apply in_map_iff. exists (k, v). auto.
Qed.

(** X3: a call never removes a task and never reorders the collection:
    the ids after the call are the ids before it, in the same order,
    followed by at most one new id, and only [create_task] adds one. *)
Theorem X3_tasks_append_only (W : Z) (clock : nat -> Time) (c : Call) (s : State) :
  exists extra,
    keys (tasks (exec W clock c s)) = keys (tasks s) ++ extra /\
    (List.length extra <= 1)%nat /\
    match c with
    | CreateTask u ty _ _ =>
        extra = if dict_mem (make_task_id ty u) (tasks s) then [] else [make_task_id ty u]
    | _ => extra = []
    end.
Proof.
  destruct (keys_exec W clock c s) as [E|(u & ty & d & p & -> & Hn & E)].
  - exists []. rewrite app_nil_r. split; [exact E|]. split; [simpl; lia|].
    destruct c as [u ty d p| | | | |]; try reflexivity.
    destruct (dict_mem (make_task_id ty u) (tasks s)) eqn:Em; [reflexivity|].
    exfalso. unfold exec in E. rewrite call_create_task in E. simpl in E.
    rewrite dict_set_keys, Em in E.
    apply (f_equal (@List.length string)) in E. rewrite length_app in E. simpl in E. lia.
  - exists [make_task_id ty u]. split; [exact E|]. split; [simpl; lia|].
    unfold dict_mem. now rewrite Hn.
Qed.

(** ** Fields no call changes *)

(** X4: the type, the parent and the creation time of a stored task are
    never changed: after any call that does not create a task under an id
    already in use, the task is still stored under its id with the same
    [type], [parent_id] and [created_at]. *)
Theorem X4_immutable_fields (W : Z) (clock : nat -> Time) (c : Call) (s : State)
        (id : string) (t : Task) :
  overwrites c s = false ->
  dict_get id (tasks s) = Some t ->
  exists t',
    dict_get id (tasks (exec W clock c s)) = Some t' /\
    type t' = type t /\ parent_id t' = parent_id t /\ created_at t' = created_at t.
Proof.
  intros Ho Hg.
  destruct (exec_edges W clock c s) as (ts' & extra & -> & H2 & _).
  destruct (entry_edges_get _ _ _ _ _ H2 Hg) as (t' & Hg' & He).
  exists t'. split; [rewrite dict_get_app, Hg'; reflexivity|].
  destruct He; simpl; auto.
  - unfold complete. destruct (truthy rd); simpl; auto.
  - simpl in Ho. unfold dict_mem in Ho. rewrite Hg in Ho. discriminate Ho.
Qed.

Lemma X4_immutable_fields_witness :
  exists t',
    dict_get seed_id
      (tasks (exec 24 (at_time 200) (CompleteTask seed_id (Some "agent-1") FAILED None) st_claimed))
    = Some t' /\
    type t' = "seed_dp" /\ parent_id t' = None /\ created_at t' = 10.
Proof.
  apply (X4_immutable_fields 24 (at_time 200) (CompleteTask seed_id (Some "agent-1") FAILED None)
           st_claimed seed_id
           (mkTask "seed_dp" IN_PROGRESS None (Some "agent-1") (Some 100) None 10 []
                   (Some 100) None)).
  - reflexivity.
  - reflexivity.
Defined.

(** ** The status summary *)

Lemma value_eqb (a b : TaskStatus) :
  String.eqb (value a) (value b) = status_eqb b a.
Proof. destruct a, b; reflexivity. Qed.

Lemma sum_counts_app (d1 d2 : dict nat) :
  sum_counts (d1 ++ d2) = (sum_counts d1 + sum_counts d2)%nat.
Proof.
  unfold sum_counts. induction d1 as [|[k n] d1 IH]; simpl; [reflexivity|].
  rewrite IH. lia.
Qed.

Lemma dict_incr_present k n d :
  dict_get k d = Some n ->
  dict_incr k d = Some (dict_set k (S n) d) /\
  sum_counts (dict_set k (S n) d) = S (sum_counts d).
Proof.
  intros Hg. unfold dict_incr. rewrite Hg. split; [reflexivity|].
  destruct (dict_get_split _ _ _ Hg) as (l1 & l2 & -> & _ & Hs).
  rewrite Hs, !sum_counts_app. simpl. lia.
Qed.

Lemma count_where_cons p k t ts :
  count_where p ((k, t) :: ts) = ((if p t then 1 else 0) + count_where p ts)%nat.
Proof. unfold count_where. simpl. destruct (p t); reflexivity. Qed.

Lemma count_where_ext p q ts :
  (forall t, p t = q t) -> count_where p ts = count_where q ts.
Proof.
  intros H. induction ts as [|[k t] ts IH]; [reflexivity|].
  rewrite !count_where_cons, IH, H. reflexivity.
Qed.

(** One iteration of the counting loop. *)
Lemma count_task_spec sc tc t :
  (forall st, dict_get (value st) sc <> None) ->
  exists sc' tc',
    count_task (sc, tc) t = Some (sc', tc') /\
    (forall k, dict_get k sc' =
               if String.eqb k (value (status t)) then option_map S (dict_get k sc)
               else dict_get k sc) /\
    (forall k, dict_get k tc' =
               if String.eqb k (type t)
               then Some (S (match dict_get k tc with Some n => n | None => 0%nat end))
               else dict_get k tc) /\
    sum_counts sc' = S (sum_counts sc) /\
    sum_counts tc' = S (sum_counts tc).
Proof.
  intros Hall. unfold count_task.
  destruct (dict_get (value (status t)) sc) as [n|] eqn:En;
    [|exfalso; exact (Hall _ En)].
  destruct (dict_incr_present _ _ _ En) as [-> Hsum].
  set (tc0 := if dict_mem (type t) tc then tc else dict_set (type t) 0%nat tc).
  assert (H0 : exists m, dict_get (type t) tc0 = Some m /\
                         m = match dict_get (type t) tc with Some n => n | None => 0%nat end /\
                         sum_counts tc0 = sum_counts tc /\
                         forall k, String.eqb k (type t) = false ->
                                   dict_get k tc0 = dict_get k tc).
  { subst tc0. unfold dict_mem. destruct (dict_get (type t) tc) as [m|] eqn:Em.
    - exists m. rewrite Em. auto.
    - exists 0%nat. rewrite dict_get_set, String.eqb_refl. repeat split.
      + rewrite (dict_set_absent _ _ _ Em), sum_counts_app. simpl. lia.
      + intros k Hk. now rewrite dict_get_set, Hk. }
  destruct H0 as (m & Hm & Hm0 & Hs0 & Hk0).
  destruct (dict_incr_present _ _ _ Hm) as [-> Hsum'].
  eexists _, _. split; [reflexivity|]. repeat split.
  - intros k. rewrite dict_get_set.
    destruct (String.eqb k (value (status t))) eqn:E; [|reflexivity].
    apply String.eqb_eq in E. subst k. now rewrite En.
  - intros k. rewrite dict_get_set.
    destruct (String.eqb k (type t)) eqn:E.
    + apply String.eqb_eq in E. subst k. now rewrite Hm0.
    + now apply Hk0.
  - exact Hsum.
  - rewrite Hsum'. now rewrite Hs0.
Qed.

(** The whole loop. *)
Lemma count_tasks_spec ts : forall sc tc,
  (forall st, dict_get (value st) sc <> None) ->
  exists sc' tc',
    count_tasks (sc, tc) ts = Some (sc', tc') /\
    (forall k, dict_get k sc' =
               option_map (fun n => (n + count_where
                                        (fun t => String.eqb k (value (status t))) ts)%nat)
                          (dict_get k sc)) /\
    (forall k, dict_get k tc' =
               let c := count_where (fun t => String.eqb k (type t)) ts in
               match dict_get k tc with
               | Some n => Some (n + c)%nat
               | None => match c with O => None | S _ => Some c end
               end) /\
    sum_counts sc' = (sum_counts sc + List.length ts)%nat /\
    sum_counts tc' = (sum_counts tc + List.length ts)%nat.
Proof.
  induction ts as [|[id t] ts IH]; intros sc tc Hall.
  - exists sc, tc. unfold count_where. simpl. split; [reflexivity|]. repeat split.
    + intros k. destruct (dict_get k sc); simpl; [f_equal; lia|reflexivity].
    + intros k. destruct (dict_get k tc); [f_equal; lia|reflexivity].
    + lia.
    + lia.
  - destruct (count_task_spec sc tc t Hall) as (sc1 & tc1 & E1 & Hs1 & Ht1 & Hsum1 & Hsum1').
    assert (Hall1 : forall st, dict_get (value st) sc1 <> None).
    { intros st. rewrite Hs1. specialize (Hall st).
      destruct (String.eqb (value st) (value (status t)));
        destruct (dict_get (value st) sc); simpl; congruence. }
    destruct (IH sc1 tc1 Hall1) as (sc' & tc' & E & Hs & Ht & Hsum & Hsum').
    exists sc', tc'. cbn [count_tasks]. rewrite E1. split; [exact E|]. repeat split.
    + intros k. rewrite Hs, Hs1, count_where_cons.
      destruct (String.eqb k (value (status t))); destruct (dict_get k sc);
        simpl; try reflexivity; f_equal; lia.
    + intros k. rewrite Ht, Ht1, count_where_cons. cbv zeta.
      destruct (String.eqb k (type t)); destruct (dict_get k tc); simpl;
        try reflexivity; try (f_equal; lia).
    + rewrite Hsum, Hsum1. simpl. lia.
    + rewrite Hsum', Hsum1'. simpl. lia.
Qed.

(** X1: [get_status_summary] never fails on a missing key and leaves the
    file as it is.  [total_tasks] is the number of stored tasks; every
    status has an entry in [status_counts], the number of stored tasks of
    that status; a type has an entry in [type_counts] exactly when some
    stored task has it, the number of these tasks; and the status counts
    and the type counts both add up to [total_tasks]. *)
Theorem X1_status_summary_counts (s : State) :
  exists sm,
    call get_status_summary s = (Some sm, s) /\
    total_tasks sm = List.length (tasks s) /\
    (forall st, dict_get (value st) (status_counts sm) =
                Some (count_where (fun t => status_eqb (status t) st) (tasks s))) /\
    (forall ty, dict_get ty (type_counts sm) =
                match count_where (fun t => String.eqb ty (type t)) (tasks s) with
                | O => None
                | S n => Some (S n)
                end) /\
    sum_counts (status_counts sm) = total_tasks sm /\
    sum_counts (type_counts sm) = total_tasks sm /\
    summary_metadata sm = metadata s.
Proof.
  assert (Hall : forall st, dict_get (value st) zero_status_counts <> None)
    by (intros []; discriminate).
  destruct (count_tasks_spec (tasks s) zero_status_counts [] Hall)
    as (sc & tc & E & Hs & Ht & Hsum & Hsum').
  exists (mkSummary (List.length (tasks s)) sc tc (metadata s)).
  split; [|repeat split; simpl].
  - unfold call, get_status_summary, bind, _load_state. cbn [disk].
    destruct (count_tasks _ (tasks s)) as [[sc0 tc0]|]; [|discriminate E].
    injection E as -> ->. reflexivity.
  - intros st. rewrite Hs.
    assert (E0 : dict_get (value st) zero_status_counts = Some 0%nat)
      by (destruct st; reflexivity).
    rewrite E0. simpl. f_equal. apply count_where_ext. intros t. apply value_eqb.
  - intros ty. rewrite Ht. cbv zeta. simpl.
    destruct (count_where (fun t => String.eqb ty (type t)) (tasks s)); reflexivity.
  - exact Hsum.
  - exact Hsum'.
Qed.

(** ** Children *)

Lemma children_of_app parent ts1 ts2 :
  children_of parent (ts1 ++ ts2) = children_of parent ts1 ++ children_of parent ts2.
Proof.
  induction ts1 as [|[k t] ts1 IH]; simpl; [reflexivity|].
  destruct (parent_is t parent); simpl; now rewrite IH.
Qed.

(** X2: after [create_task] has stored a task under a new id, the children
    of a parent are its children before the call, in the same order,
    followed by the new task when its [parent_id] is that parent; whether a
    task of that id exists plays no part. *)
Theorem X2_children_after_create (clock : nat -> Time) (u : hex8) (ty : string)
        (d : dict json) (p : option string) (s : State) (parent : string) :
  dict_get (make_task_id ty u) (tasks s) = None ->
  fst (call (get_task_children parent) (snd (call (create_task clock u ty d p) s))) =
  fst (call (get_task_children parent) s) ++
  match p with
  | Some q =>
      if String.eqb q parent
      then [(make_task_id ty u, mkTask ty PENDING p None None None (clock 0%nat) d None None)]
      else []
  | None => []
  end.
Proof.
  intros Hn. rewrite call_create_task.
  unfold call, get_task_children, bind, _load_state, ret. simpl.
  rewrite (dict_set_absent _ _ _ Hn), children_of_app. f_equal.
  simpl. unfold parent_is. simpl. destruct p as [q|]; [|reflexivity].
  destruct (String.eqb q parent); reflexivity.
Qed.

Lemma X2_children_after_create_witness :
  fst (call (get_task_children "no_such_task")
            (snd (call (create_task (at_time 20) u0 "draft_dp" [] (Some "no_such_task"))
                       st_created))) =
  [("draft_dp_00000000",
    mkTask "draft_dp" PENDING (Some "no_such_task") None None None 20 [] None None)].
Proof.
  apply (X2_children_after_create (at_time 20) u0 "draft_dp" [] (Some "no_such_task")
           st_created "no_such_task").
  reflexivity.
Defined.

(** ** Completion times *)

Lemma edge_completed_iff_terminal c k t t' :
  completion_tracked c ->
  task_edge c k t t' ->
  idle_unlocked t /\ (completed_at t <> None <-> terminal (status t) = true) ->
  idle_unlocked t' /\ (completed_at t' <> None <-> terminal (status t') = true).
Proof.
  intros [Hc Hu] He [Hi Hct]. split; [exact (edge_idle_unlocked _ _ _ _ He Hi)|].
  assert (Hnone : terminal (status t) = false -> completed_at t = None).
  { intros Hf. destruct (completed_at t) as [x|] eqn:E; [|reflexivity].
    assert (Hx : terminal (status t) = true) by (apply Hct; discriminate).
    congruence. }
  assert (Hheld : forall a, locked_by t = Some a -> status t = IN_PROGRESS).
  { intros a Ha. destruct (status t) eqn:E; try reflexivity;
      (destruct Hi as [Hi _]; congruence). }
  destruct He; simpl in *.
  - exact Hct.
  - rewrite Hnone by (rewrite H; reflexivity). split; [congruence|discriminate].
  - rewrite Hnone by (rewrite H; reflexivity). split; [congruence|discriminate].
  - rewrite Hnone by (rewrite H; reflexivity). split; [congruence|discriminate].
  - apply negb_false_iff in Hc. unfold complete. destruct (truthy rd); simpl;
      (split; [intros _; exact Hc|discriminate]).
  - destruct a as [name|]; [|discriminate Hu].
    rewrite Hnone by (rewrite (Hheld _ H); reflexivity).
    split; [congruence|discriminate].
  - exact Hct.
  - split; [congruence|discriminate].
Qed.

(** With the agent id [None], [release_task] returns a completed task to
    pending and leaves its [completed_at]. *)
Example release_unheld_keeps_completed_at :
  call (release_task (at_time 300) seed_id None) st_completed
  = (true,
     mkState "generic" [("initialized_at", JStamp 0); ("last_updated", JStamp 300)]
             [(seed_id, mkTask "seed_dp" PENDING None None None (Some 200) 10 []
                               (Some 100) None)]).
Proof. reflexivity. Qed.

(** X5: when every [complete_task] is given a terminal status and no
    [release_task] is given the agent id [None], in every reachable state
    a task has a [completed_at] exactly when its status is completed,
    failed or cancelled. *)
Theorem X5_completed_at_iff_terminal (s : State) (id : string) (t : Task) :
  reachable_by completion_tracked s ->
  In (id, t) (tasks s) ->
  (completed_at t <> None <-> terminal (status t) = true).
Proof.
  intros Hr Hin.
  assert (H : Forall (fun kv => idle_unlocked (snd kv) /\
                                (completed_at (snd kv) <> None <->
                                 terminal (status (snd kv)) = true)) (tasks s)).
  { clear Hin. induction Hr as [clock|s W clock c _ IH Hc]; [constructor|].
    apply exec_preserves with
      (P := fun t => idle_unlocked t /\
                     (completed_at t <> None <-> terminal (status t) = true)).
    - intros k x x'. now apply edge_completed_iff_terminal.
    - intros kv Hkv. split; [now apply appended_fresh in Hkv|].
      destruct c; simpl in Hkv; try contradiction.
      destruct Hkv as [_ [tm ->]]. simpl. split; [congruence|discriminate].
    - exact IH. }
  rewrite Forall_forall in H. exact (proj2 (H _ Hin)).
Qed.

Lemma X5_completed_at_iff_terminal_witness :
  completed_at (mkTask "seed_dp" COMPLETED None None None (Some 200) 10 [] (Some 100) None)
  <> None <-> terminal COMPLETED = true.
Proof.
  apply (X5_completed_at_iff_terminal st_completed seed_id
           (mkTask "seed_dp" COMPLETED None None None (Some 200) 10 [] (Some 100) None)).
  - unfold st_completed, st_claimed, st_created, st_init.
    repeat (first [ apply reach_init | apply reach_step; [|split; reflexivity] ]).
  - left. reflexivity.
Defined.

(** ** The workflow metadata *)

(** X6: [update_workflow_metadata] merges the given mapping into the
    metadata and touches nothing else: the tasks and the top-level
    [workflow_type] are as before; every key of the mapping other than
    [last_updated] takes the given value, the other keys keep theirs; and
    [last_updated] is the time of the save, whatever the mapping gives
    for it. *)
Theorem X6_update_workflow_metadata (clock : nat -> Time) (md : dict json) (s : State) :
  NoDup (keys md) ->
  let s' := snd (call (update_workflow_metadata clock md) s) in
  tasks s' = tasks s /\
  workflow_type s' = workflow_type s /\
  dict_get "last_updated" (metadata s') = Some (JStamp (clock 0%nat)) /\
  forall k, String.eqb k "last_updated" = false ->
            dict_get k (metadata s') =
            match dict_get k md with
            | Some v => Some v
            | None => dict_get k (metadata s)
            end.
Proof.
  intros Hn s'. unfold s'. rewrite call_update_workflow_metadata. simpl.
  repeat split.
  - now rewrite dict_get_set.
  - intros k Hk. rewrite dict_get_set, Hk. now apply dict_get_update.
Qed.

(** The metadata written by [init_seed_tasks.py]: the key [workflow_type]
    goes into the metadata, the top-level [workflow_type] stays. *)
Lemma X6_update_workflow_metadata_witness :
  let s' := snd (call (update_workflow_metadata
                         (at_time 5)
                         [("workflow_type", JStr "dp_generation");
                          ("initialization_method", JStr "eval_tasks_directory")])
                      st_init) in
  workflow_type s' = "generic" /\
  dict_get "last_updated" (metadata s') = Some (JStamp 5) /\
  dict_get "workflow_type" (metadata s') = Some (JStr "dp_generation").
Proof.
  pose proof (X6_update_workflow_metadata
                (at_time 5)
                [("workflow_type", JStr "dp_generation");
                 ("initialization_method", JStr "eval_tasks_directory")] st_init)
    as H.
  destruct H as (_ & Hw & Hl & Hk).
  - simpl. constructor; [intros [H|[]]; discriminate H|].
    constructor; [intros []|constructor].
  - split; [exact Hw|]. split; [exact Hl|]. now rewrite Hk.
Defined.

(** A call leaves the file as it is or ends with a save. *)
Lemma exec_saved W clock c s :
  exec W clock c s = s \/
  exists t s0, exec W clock c s = stamp t s0 /\ workflow_type s0 = workflow_type s.
Proof.
  destruct c as [u ty d p|a tys|id a st rd|id a|id d|md]; unfold exec.
  - rewrite call_create_task. simpl. right. eauto.
  - rewrite call_get_next_task. cbv zeta.
    destruct (first_claimable tys (tasks (reclaimed W (clock 0%nat) s)))
      as [[[l1 [k t]] l2]|]; simpl.
    + right. eexists _, _. split; [reflexivity|].
      destruct (snd (check_tasks W (clock 0%nat) (tasks s))); reflexivity.
    + destruct (snd (check_tasks W (clock 0%nat) (tasks s))); [now left|].
      right. eexists _, _. split; reflexivity.
  - rewrite call_complete_task.
    destruct (dict_get id (tasks s)) as [t|]; [|now left].
    destruct (locked_by_differs t a); [now left|]. simpl. right. eauto.
  - rewrite call_release_task.
    destruct (dict_get id (tasks s)) as [t|]; [|now left].
    destruct (locked_by_differs t a); [now left|]. simpl. right. eauto.
  - rewrite call_update_task_data.
    destruct (dict_get id (tasks s)) as [t|]; [|now left]. simpl. right. eauto.
  - rewrite call_update_workflow_metadata. simpl. right. eauto.
Qed.

(** X7: in every reachable state the top-level [workflow_type] is still
    "generic", [update_workflow_metadata] writing its mapping into the
    metadata only, and the metadata hold under [last_updated] a time
    written by a save. *)
Theorem X7_workflow_type_generic (s : State) :
  reachable s ->
  workflow_type s = "generic" /\
  exists t, dict_get "last_updated" (metadata s) = Some (JStamp t).
Proof.
  induction 1 as [clock|s W clock c _ [IHw [t IHt]] _].
  - split; [reflexivity|]. now exists (clock 1%nat).
  - destruct (exec_saved W clock c s) as [->|(t' & s0 & -> & Hw)].
    + split; eauto.
    + destruct (stamp_fields t' s0) as [-> ->]. split; [congruence|eauto].
Qed.

Lemma X7_workflow_type_generic_witness :
  workflow_type
    (exec 24 (at_time 5)
          (UpdateWorkflowMetadata [("workflow_type", JStr "dp_generation")]) st_init)
  = "generic" /\
  exists t,
    dict_get "last_updated"
      (metadata (exec 24 (at_time 5)
                      (UpdateWorkflowMetadata [("workflow_type", JStr "dp_generation")])
                      st_init)) = Some (JStamp t).
Proof.
  apply (X7_workflow_type_generic
           (exec 24 (at_time 5)
                 (UpdateWorkflowMetadata [("workflow_type", JStr "dp_generation")]) st_init)).
  unfold reachable, st_init. reach.
Defined.

(** ** Exclusive assignment *)

(** What [get_next_task] does to the task at position [i]: it is the task
    [_check_timeouts] left there, or the claim of it, which is then the
    task returned. *)
Lemma get_next_task_entry clock W a tys s i id t :
  nth_error (tasks s) i = Some (id, t) ->
  let t1 := fst (check_task W (clock 0%nat) t) in
  let n := claim_reading W (clock 0%nat) s in
  exists t',
    nth_error (tasks (snd (call (get_next_task clock W a tys) s))) i = Some (id, t') /\
    (t' = t1 \/
     (status t1 = PENDING /\ t' = claim a (clock n) (clock (S n)) t1 /\
      fst (call (get_next_task clock W a tys) s) = Some (id, t'))).
Proof.
  intros Hn t1 n.
  assert (H1 : nth_error (fst (check_tasks W (clock 0%nat) (tasks s))) i = Some (id, t1)).
  { rewrite check_tasks_map. now rewrite (map_nth_error _ _ _ Hn). }
  rewrite tasks_get_next_task, result_get_next_task. unfold reclaimed. simpl.
  destruct (first_claimable tys (fst (check_tasks W (clock 0%nat) (tasks s))))
    as [[[l1 [k x]] l2]|] eqn:E.
  - apply first_claimable_Some in E. destruct E as (E & Hc & _).
    apply claimable_pending in Hc. rewrite E in H1. fold n.
    destruct (nth_error_replace l1 l2 _ (k, claim a (clock n) (clock (S n)) x) _ _ H1)
      as [H|[E2 H]].
    + exists t1. auto.
    + injection E2 as E3 E4. subst k x. eexists. split; [exact H|]. right. auto.
  - exists t1. auto.
Qed.

Lemma check_task_within W C t :
  (forall L, status t = IN_PROGRESS -> locked_at t = Some L -> C - L <= W * hour) ->
  check_task W C t = (t, false).
Proof.
  intros H. unfold check_task, timed_out.
  destruct (status t) eqn:Es; try reflexivity.
  destruct (locked_at t) as [L|] eqn:El; [|reflexivity].
  specialize (H L eq_refl eq_refl).
  destruct (W * hour <? C - L) eqn:E; [|reflexivity].
  apply Z.ltb_lt in E. lia.
Qed.

(** The task [get_next_task] returns is stored, in progress, and locked by
    the caller at the reading of the clock made for the claim. *)
Lemma get_next_task_claimed clock W a tys s id t :
  fst (call (get_next_task clock W a tys) s) = Some (id, t) ->
  In (id, t) (tasks (snd (call (get_next_task clock W a tys) s))) /\
  status t = IN_PROGRESS /\ locked_by t = Some a /\
  locked_at t = Some (clock (claim_reading W (clock 0%nat) s)).
Proof.
  rewrite tasks_get_next_task, result_get_next_task. unfold reclaimed. simpl.
  destruct (first_claimable tys (fst (check_tasks W (clock 0%nat) (tasks s))))
    as [[[l1 [k x]] l2]|]; [|discriminate].
  intros [= <- <-]. split; [|auto].
  apply in_or_app. right. now left.
Qed.

Lemma reachable_get_next_task_keys clock W a tys s :
  reachable s -> NoDup (keys (tasks (snd (call (get_next_task clock W a tys) s)))).
Proof.
  intros Hr. apply (reachable_keys_nodup (fun _ => True)).
  apply (reach_step _ s W clock (GetNextTask a tys) Hr I).
Qed.

(** X8: a task handed out by [get_next_task] is not handed out again by
    the next [get_next_task], to the same or another agent, under the same
    or another filter, as long as its [locked_at] is not more than the
    timeout before the time the second call reads. *)
Theorem X8_claimed_task_not_reassigned
        (clock1 clock2 : nat -> Time) (W1 W2 : Z) (a1 a2 : string)
        (tys1 tys2 : option (list string)) (s : State)
        (id id2 : string) (t t2 : Task) :
  reachable s ->
  fst (call (get_next_task clock1 W1 a1 tys1) s) = Some (id, t) ->
  (forall L, locked_at t = Some L -> clock2 0%nat - L <= W2 * hour) ->
  fst (call (get_next_task clock2 W2 a2 tys2)
            (snd (call (get_next_task clock1 W1 a1 tys1) s))) = Some (id2, t2) ->
  String.eqb id2 id = false.
Proof.
  intros Hr H1 Hw H2.
  pose proof (reachable_get_next_task_keys clock1 W1 a1 tys1 s Hr) as Hnd.
  destruct (get_next_task_claimed _ _ _ _ _ _ _ H1) as (Hin & Hs & _ & Hl).
  set (s1 := snd (call (get_next_task clock1 W1 a1 tys1) s)) in *.
  rewrite result_get_next_task in H2.
  destruct (first_claimable tys2 (tasks (reclaimed W2 (clock2 0%nat) s1)))
    as [[[l1 [k x]] l2]|] eqn:E; [|discriminate H2].
  injection H2 as -> _.
  apply first_claimable_Some in E. destruct E as (E & Hc & _).
  apply claimable_pending in Hc.
  destruct (String.eqb id2 id) eqn:Eq; [|reflexivity]. exfalso.
  apply String.eqb_eq in Eq. subst id2.
  assert (Hx : In (id, x) (tasks (reclaimed W2 (clock2 0%nat) s1)))
    by (rewrite E; apply in_or_app; right; now left).
  unfold reclaimed in Hx. simpl in Hx. rewrite check_tasks_map in Hx.
  apply in_map_iff in Hx. destruct Hx as ([k y] & Hk & Hy). simpl in Hk.
  injection Hk as -> <-.
  pose proof (nodup_keys_get _ _ _ Hnd Hin) as G1.
  pose proof (nodup_keys_get _ _ _ Hnd Hy) as G2.
  rewrite G1 in G2. injection G2 as <-.
  rewrite check_task_within in Hc; [simpl in Hc; congruence|].
  intros L _ HL. now apply Hw.
Qed.

(** Two pending tasks: the first call is given the first, the second call
    the second. *)
Lemma X8_claimed_task_not_reassigned_witness :
  String.eqb draft_id seed_id = false.
Proof.
  apply (X8_claimed_task_not_reassigned
           (at_time 100) (at_time 200) 24 24 "agent-1" "agent-2" None None st_two
           seed_id draft_id
           (claim "agent-1" 100 100
                  (mkTask "seed_dp" PENDING None None None None 10 [] None None))
           (claim "agent-2" 200 200
                  (mkTask "draft_dp" PENDING (Some seed_id) None None None 20 [] None None))).
  - unfold reachable, st_two, st_created, st_init. reach.
  - reflexivity.
  - intros L [= <-]. unfold at_time, hour. lia.
  - reflexivity.
Defined.

(** X9: [get_next_task] leaves in place every task that is not pending
    and has not timed out, completed, failed and cancelled tasks among
    them; a task in progress whose [locked_at] is exactly the timeout
    before the time read is not reclaimed. *)
Theorem X9_get_next_task_keeps (clock : nat -> Time) (W : Z) (a : string)
        (tys : option (list string)) (s : State) (i : nat) (id : string) (t : Task) :
  nth_error (tasks s) i = Some (id, t) ->
  status t <> PENDING ->
  (forall L, status t = IN_PROGRESS -> locked_at t = Some L ->
             clock 0%nat - L <= W * hour) ->
  nth_error (tasks (snd (call (get_next_task clock W a tys) s))) i = Some (id, t).
Proof.
  intros Hn Hp Hw.
  destruct (get_next_task_entry clock W a tys s i id t Hn) as (t' & Ht' & Hc).
  rewrite (check_task_within _ _ _ Hw) in Hc. simpl in Hc.
  destruct Hc as [->|[Hs _]]; [exact Ht'|contradiction].
Qed.

(** The task claimed at time 100 is kept by a call made exactly 24 hours
    later. *)
Lemma X9_get_next_task_keeps_witness :
  nth_error (tasks (snd (call (get_next_task (at_time (100 + 24 * hour)) 24 "agent-2" None)
                              st_claimed))) 0
  = Some (seed_id,
          mkTask "seed_dp" IN_PROGRESS None (Some "agent-1") (Some 100) None 10 []
                 (Some 100) None).
Proof.
  apply (X9_get_next_task_keeps (at_time (100 + 24 * hour)) 24 "agent-2" None st_claimed
           0 seed_id).
  - reflexivity.
  - discriminate.
  - intros L _ [= <-]. unfold at_time, hour. lia.
Defined.

(** X13: the task [get_next_task] returns is the task stored under the
    returned id: [get_task] on that id gives it back. *)
Theorem X13_returned_task_is_stored (clock : nat -> Time) (W : Z) (a : string)
        (tys : option (list string)) (s : State) (id : string) (t : Task) :
  reachable s ->
  fst (call (get_next_task clock W a tys) s) = Some (id, t) ->
  call (get_task id) (snd (call (get_next_task clock W a tys) s)) =
  (Some (id, t), snd (call (get_next_task clock W a tys) s)).
Proof.
  intros Hr H.
  pose proof (reachable_get_next_task_keys clock W a tys s Hr) as Hnd.
  destruct (get_next_task_claimed _ _ _ _ _ _ _ H) as (Hin & _).
  unfold call at 1. unfold get_task, bind, _load_state. cbn [disk].
  now rewrite (nodup_keys_get _ _ _ Hnd Hin).
Qed.

Lemma X13_returned_task_is_stored_witness :
  fst (call (get_task seed_id)
            (snd (call (get_next_task (at_time 100) 24 "agent-1" None) st_created)))
  = Some (seed_id,
          claim "agent-1" 100 100
                (mkTask "seed_dp" PENDING None None None None 10 [] None None)).
Proof.
  rewrite (X13_returned_task_is_stored (at_time 100) 24 "agent-1" None st_created seed_id
             (claim "agent-1" 100 100
                    (mkTask "seed_dp" PENDING None None None None 10 [] None None))).
  - reflexivity.
  - unfold reachable, st_created, st_init. reach.
  - reflexivity.
Defined.

(** X12: let the timeout be the default 24 hours, or any other in
    [timeout_in_range].  Once [get_next_task], called by agent [b], has
    reclaimed a task that timed out, no other agent can complete or
    release it under its name: for every agent id [a] that is a string
    other than [b], the former holder's included, both calls return
    [False] and leave the file as it is. *)
Theorem X12_reclaimed_task_refuses_others
        (clock clock' : nat -> Time) (W : Z) (a b : string)
        (tys : option (list string)) (s : State) (id : string) (t : Task) (L : Time)
        (st : TaskStatus) (rd : option (dict json)) :
  timeout_in_range W ->
  reachable s ->
  dict_get id (tasks s) = Some t ->
  status t = IN_PROGRESS ->
  locked_at t = Some L ->
  W * hour < clock 0%nat - L ->
  String.eqb b a = false ->
  let s' := snd (call (get_next_task clock W b tys) s) in
  call (complete_task clock' id (Some a) st rd) s' = (false, s') /\
  call (release_task clock' id (Some a)) s' = (false, s').
Proof.
  intros _ Hr Hg Hs Hl Hlt Hba s'.
  pose proof (reachable_get_next_task_keys clock W b tys s Hr) as Hnd. fold s' in Hnd.
  destruct (In_nth_error _ _ (dict_get_In _ _ _ Hg)) as [i Hi].
  destruct (get_next_task_entry clock W b tys s i id t Hi) as (t' & Ht' & Hc).
  fold s' in Ht'. rewrite (check_task_timed_out W _ t L Hs Hl Hlt) in Hc. simpl in Hc.
  pose proof (nodup_keys_get _ _ _ Hnd (nth_error_In _ _ Ht')) as Hg'.
  assert (Hd : locked_by_differs t' (Some a) = true).
  { unfold locked_by_differs. destruct Hc as [->|(_ & -> & _)]; simpl; [reflexivity|].
    now rewrite Hba. }
  rewrite call_complete_task, call_release_task, Hg', Hd. auto.
Qed.

(** The task claimed by "agent-1" at time 100 is reclaimed by the call of
    "agent-2" 25 hours later; "agent-1" can then not complete it. *)
Lemma X12_reclaimed_task_refuses_others_witness :
  fst (call (complete_task (at_time (200 + 25 * hour)) seed_id (Some "agent-1") COMPLETED None)
            (snd (call (get_next_task (at_time (100 + 25 * hour)) 24 "agent-2" None)
                       st_claimed))) = false.
Proof.
  pose proof (X12_reclaimed_task_refuses_others
                (at_time (100 + 25 * hour)) (at_time (200 + 25 * hour)) 24
                "agent-1" "agent-2" None st_claimed seed_id
                (mkTask "seed_dp" IN_PROGRESS None (Some "agent-1") (Some 100) None 10 []
                        (Some 100) None)
                100 COMPLETED None) as H.
  cbv zeta in H. destruct H as [H _].
  - split; [lia|reflexivity].
  - unfold reachable, st_claimed, st_created, st_init. reach.
  - reflexivity.
  - reflexivity.
  - reflexivity.
  - unfold at_time, hour. lia.
  - reflexivity.
  - now rewrite H.
Defined.

(** ** Release and completion *)

(** X10: [release_task] returns [True] exactly when the id is stored and
    the task's [locked_by] equals the agent id given.  It then rewrites
    that task alone: the task is pending with both lock fields empty, and
    its type, parent, data, [created_at], [task_started_at],
    [completed_at] and [updated_at] are as before.  With the same agent
    id, a string, the task can then be neither released nor completed;
    with the agent id [None] both calls succeed on it. *)
Theorem X10_release_task (clock : nat -> Time) (id : string) (a : option string)
        (s : State) :
  (fst (call (release_task clock id a) s) = true <->
   exists t, dict_get id (tasks s) = Some t /\ locked_by t = a) /\
  (forall t, dict_get id (tasks s) = Some t -> locked_by t = a ->
     let s' := snd (call (release_task clock id a) s) in
     exists l1 l2 t',
       tasks s = l1 ++ (id, t) :: l2 /\
       tasks s' = l1 ++ (id, t') :: l2 /\
       (status t' = PENDING /\ locked_by t' = None /\ locked_at t' = None) /\
       (type t' = type t /\ parent_id t' = parent_id t /\ created_at t' = created_at t /\
        data t' = data t /\ task_started_at t' = task_started_at t /\
        completed_at t' = completed_at t /\ updated_at t' = updated_at t) /\
       (forall clock' st rd,
           fst (call (release_task clock' id a) s')
           = match a with Some _ => false | None => true end /\
           fst (call (complete_task clock' id a st rd) s')
           = match a with Some _ => false | None => true end)).
Proof.
  split.
  - rewrite call_release_task.
    destruct (dict_get id (tasks s)) as [t|] eqn:E; simpl.
    + destruct (locked_by_differs t a) eqn:El; simpl.
      * split; [discriminate|]. intros (t' & [= <-] & Hl).
        apply locked_by_differs_false in Hl. congruence.
      * apply locked_by_differs_false in El. split; eauto.
    + split; [discriminate|]. intros (t' & Ht & _). discriminate Ht.
  - intros t Hg Hl s'. unfold s'. rewrite call_release_task, Hg.
    apply locked_by_differs_false in Hl. rewrite Hl. simpl.
    destruct (dict_get_split _ _ _ Hg) as (l1 & l2 & E & _ & Hs).
    exists l1, l2, (release t). split; [exact E|]. split; [apply Hs|].
    split; [repeat split|]. split; [repeat split|].
    intros clock' st rd.
    rewrite call_release_task, call_complete_task. simpl.
    rewrite dict_get_set, String.eqb_refl. destruct a; split; reflexivity.
Qed.

Lemma X10_release_task_witness :
  fst (call (release_task (at_time 150) seed_id (Some "agent-1")) st_claimed) = true /\
  fst (call (release_task (at_time 160) seed_id (Some "agent-1"))
            (snd (call (release_task (at_time 150) seed_id (Some "agent-1")) st_claimed))) = false.
Proof.
  destruct (X10_release_task (at_time 150) seed_id (Some "agent-1") st_claimed) as [H1 H2].
  split.
  - apply H1. eexists. split; reflexivity.
  - destruct (H2 _ eq_refl eq_refl) as (l1 & l2 & t' & _ & _ & _ & _ & H).
    apply (H (at_time 160) COMPLETED None).
Defined.

(** X11: a successful [complete_task] rewrites the named task alone: it
    writes the given status and the completion time, empties both lock
    fields, merges a non-empty result mapping into [data] and leaves [data]
    alone when no mapping or an empty one is given; the type, the parent
    and the other timestamps are as before. *)
Theorem X11_complete_task_frame (clock : nat -> Time) (id : string)
        (a : option string) (st : TaskStatus)
        (rd : option (dict json)) (s : State) (t : Task) :
  dict_get id (tasks s) = Some t ->
  locked_by t = a ->
  (forall d, rd = Some d -> NoDup (keys d)) ->
  let s' := snd (call (complete_task clock id a st rd) s) in
  exists l1 l2 t',
    tasks s = l1 ++ (id, t) :: l2 /\
    tasks s' = l1 ++ (id, t') :: l2 /\
    (status t' = st /\ completed_at t' = Some (clock 0%nat) /\
     locked_by t' = None /\ locked_at t' = None) /\
    (forall k, dict_get k (data t') =
               match rd with
               | Some d => match dict_get k d with
                           | Some v => Some v
                           | None => dict_get k (data t)
                           end
               | None => dict_get k (data t)
               end) /\
    (truthy rd = false -> data t' = data t) /\
    (type t' = type t /\ parent_id t' = parent_id t /\ created_at t' = created_at t /\
     task_started_at t' = task_started_at t /\ updated_at t' = updated_at t).
Proof.
  intros Hg Hl Hnd s'. unfold s'. rewrite call_complete_task, Hg.
  apply locked_by_differs_false in Hl. rewrite Hl. simpl.
  destruct (dict_get_split _ _ _ Hg) as (l1 & l2 & E & _ & Hs).
  exists l1, l2, (complete st (clock 0%nat) rd t).
  split; [exact E|]. split; [apply Hs|].
  unfold complete. destruct rd as [[|x d]|]; simpl.
  - repeat split.
  - repeat split. intros k.
    apply (dict_get_update k (data t) (x :: d)). now apply Hnd.
    intros H. discriminate H.
  - repeat split.
Qed.

Lemma X11_complete_task_frame_witness :
  exists l1 l2 t',
    tasks (snd (call (complete_task (at_time 200) seed_id (Some "agent-1") COMPLETED
                                    (Some [("result", JNum 1)])) st_claimed))
    = l1 ++ (seed_id, t') :: l2 /\
    status t' = COMPLETED /\ completed_at t' = Some 200 /\
    dict_get "result" (data t') = Some (JNum 1) /\
    task_started_at t' = Some 100.
Proof.
  destruct (X11_complete_task_frame (at_time 200) seed_id (Some "agent-1") COMPLETED
              (Some [("result", JNum 1)]) st_claimed
              (mkTask "seed_dp" IN_PROGRESS None (Some "agent-1") (Some 100) None 10 []
                      (Some 100) None))
    as (l1 & l2 & t' & _ & E & (Hs & Hc & _) & Hd & _ & (_ & _ & _ & Hst & _)).
  - reflexivity.
  - reflexivity.
  - intros d [= <-]. simpl. constructor; [intros []|constructor].
  - exists l1, l2, t'. split; [exact E|]. split; [exact Hs|]. split; [exact Hc|].
    split; [now rewrite Hd|exact Hst].
Defined.

(** ** Data keys *)

Lemma dict_mem_update {V} (k : string) (d m : dict V) :
  dict_mem k d = true -> dict_mem k (dict_update d m) = true.
Proof.
  unfold dict_mem. rewrite dict_get_update_rev.
  destruct (dict_get k (rev m)); [reflexivity|auto].
Qed.

(** X17: no call removes a key from the [data] of a task: after any call
    that does not create a task under an id already in use, every key the
    task's [data] had is still a key of it. *)
Theorem X17_data_keys_kept (W : Z) (clock : nat -> Time) (c : Call) (s : State)
        (id : string) (t : Task) (k : string) :
  overwrites c s = false ->
  dict_get id (tasks s) = Some t ->
  dict_mem k (data t) = true ->
  exists t',
    dict_get id (tasks (exec W clock c s)) = Some t' /\ dict_mem k (data t') = true.
Proof.
  intros Ho Hg Hk.
  destruct (exec_edges W clock c s) as (ts' & extra & -> & H2 & _).
  destruct (entry_edges_get _ _ _ _ _ H2 Hg) as (t' & Hg' & He).
  exists t'. split; [rewrite dict_get_app, Hg'; reflexivity|].
  destruct He; simpl; auto.
  - unfold complete. destruct (truthy rd); simpl; [|exact Hk].
    now apply dict_mem_update.
  - now apply dict_mem_update.
  - simpl in Ho. unfold dict_mem in Ho. rewrite Hg in Ho. discriminate Ho.
Qed.

Lemma X17_data_keys_kept_witness :
  exists t',
    dict_get seed_id
      (tasks (exec 24 (at_time 300) (UpdateTaskData seed_id [("note", JNull)])
                   (exec 24 (at_time 200)
                         (CompleteTask seed_id (Some "agent-1") COMPLETED
                                       (Some [("result", JNum 1)])) st_claimed)))
    = Some t' /\
    dict_mem "result" (data t') = true.
Proof.
  apply (X17_data_keys_kept 24 (at_time 300) (UpdateTaskData seed_id [("note", JNull)])
           (exec 24 (at_time 200)
                 (CompleteTask seed_id (Some "agent-1") COMPLETED (Some [("result", JNum 1)]))
                 st_claimed)
           seed_id
           (mkTask "seed_dp" COMPLETED None None None (Some 200) 10 [("result", JNum 1)]
                   (Some 100) None)
           "result").
  - reflexivity.
  - reflexivity.
  - reflexivity.
Defined.

(** ** The command-line wrapper *)

Lemma read_field_get {A} (f : Task -> A) id s t :
  dict_get id (tasks s) = Some t -> read_field f id s = Some (f t).
Proof.
  intros H. unfold read_field, call, get_task, bind, _load_state. cbn [disk].
  now rewrite H.
Qed.

Lemma locked_by_differs_self t : locked_by_differs t (locked_by t) = false.
Proof. now apply locked_by_differs_false. Qed.

(** X14: [cmd_complete] checks the status word first and the id second,
    and an error leaves the file as it is.  For a valid status word and a
    stored id, the command copies the artifact when a file is named and
    exists; if the copy raises, the command raises and the file is as it
    was.  Otherwise it always succeeds: the agent id it passes is the
    [locked_by] it has just read from the task, so the task is given the
    status, whether it was pending, in progress under any agent, or
    completed already, and [artifact_saved] is written in its data when
    the artifact was copied. *)
Theorem X14_cmd_complete (clock : nat -> Time) (artifacts_dir : string)
        (joinpath : string -> string -> string) (file_exists : string -> bool)
        (copy_artifact : string -> string -> bool)
        (id word : string) (artifact_file : option string) (s : State) :
  let r := call (cmd_complete clock artifacts_dir joinpath file_exists copy_artifact
                              id word artifact_file) s in
  match status_map word, dict_get id (tasks s) with
  | None, _ =>
      r = (Some (mkReply "error" ("Invalid status: " ++ word)%string), s)
  | Some _, None =>
      r = (Some (mkReply "error" ("Task " ++ id ++ " not found")%string), s)
  | Some st, Some t =>
      let file := match artifact_file with Some f => f | None => EmptyString end in
      let path := get_artifact_path artifacts_dir joinpath id (type t) in
      let given := nonempty artifact_file && file_exists file in
      if given && negb (copy_artifact file path) then r = (None, s)
      else
        fst r = Some (mkReply "success" ("Task " ++ id ++ " marked as " ++ word)%string) /\
        exists t',
          dict_get id (tasks (snd r)) = Some t' /\
          status t' = st /\ completed_at t' = Some (clock 0%nat) /\
          locked_by t' = None /\ locked_at t' = None /\ type t' = type t /\
          data t' = (if given
                     then dict_update (data t) [("artifact_saved", JStr path)]
                     else data t)
  end.
Proof.
  intros r. unfold r, call, cmd_complete.
  destruct (status_map word) as [st|]; [|reflexivity].
  unfold get_task, bind, _load_state, ret. cbn [disk].
  destruct (dict_get id (tasks s)) as [t|] eqn:E; [|reflexivity].
  cbv zeta.
  destruct (nonempty artifact_file &&
            file_exists match artifact_file with Some f => f | None => EmptyString end);
    cbn [andb negb].
  - destruct (copy_artifact _ _); cbn [negb]; [|reflexivity].
    unfold complete_and_reply, complete_task, _save_state.
    unfold bind, _load_state, now, ret. cbn [disk tasks].
    rewrite E, locked_by_differs_self. simpl.
    split; [reflexivity|]. rewrite dict_get_set, String.eqb_refl.
    eexists. split; [reflexivity|]. repeat split.
  - unfold complete_and_reply, complete_task, _save_state.
    unfold bind, _load_state, now, ret. cbn [disk tasks].
    rewrite E, locked_by_differs_self. simpl.
    split; [reflexivity|]. rewrite dict_get_set, String.eqb_refl.
    eexists. split; [reflexivity|]. repeat split.
Qed.

(** A pending task, never claimed, is completed by the command, and the
    path of the copied artifact is recorded. *)
Lemma X14_cmd_complete_witness :
  fst (call (cmd_complete (at_time 50) "artifacts" (fun a b => (a ++ "/" ++ b)%string)
                          (fun _ => true) (fun _ _ => true)
                          seed_id "completed" (Some "out.json")) st_created)
  = Some (mkReply "success" "Task seed_dp_00000000 marked as completed") /\
  read_field status seed_id
    (snd (call (cmd_complete (at_time 50) "artifacts" (fun a b => (a ++ "/" ++ b)%string)
                             (fun _ => true) (fun _ _ => true)
                             seed_id "completed" (Some "out.json")) st_created))
  = Some COMPLETED /\
  read_field data seed_id
    (snd (call (cmd_complete (at_time 50) "artifacts" (fun a b => (a ++ "/" ++ b)%string)
                             (fun _ => true) (fun _ _ => true)
                             seed_id "completed" (Some "out.json")) st_created))
  = Some [("artifact_saved", JStr "artifacts/seed_dps/seed_dp_00000000.json")].
Proof.
  pose proof (X14_cmd_complete (at_time 50) "artifacts" (fun a b => (a ++ "/" ++ b)%string)
                               (fun _ => true) (fun _ _ => true)
                               seed_id "completed" (Some "out.json") st_created) as H.
  cbv zeta in H.
  change (status_map "completed") with (Some COMPLETED) in H.
  change (dict_get seed_id (tasks st_created))
    with (Some (mkTask "seed_dp" PENDING None None None None 10 [] None None)) in H.
  cbv iota in H. cbn [nonempty andb negb] in H.
  destruct H as [H1 (t' & Hg & Hs & _ & _ & _ & _ & Hd)].
  split; [exact H1|].
  rewrite !(read_field_get _ _ _ _ Hg). rewrite Hs, Hd. split; reflexivity.
Defined.

(** The same command when the copy of the artifact raises: no reply, and
    the task is still pending. *)
Example cmd_complete_copy_raises :
  call (cmd_complete (at_time 50) "artifacts" (fun a b => (a ++ "/" ++ b)%string)
                     (fun _ => true) (fun _ _ => false)
                     seed_id "completed" (Some "out.json")) st_created
  = (None, st_created).
Proof. reflexivity. Qed.

(** X15: [cmd_release] succeeds on every stored task, for the same
    reason: the task is pending afterwards with both lock fields empty,
    whatever its status was, and keeps its [completed_at]; an unknown id is
    an error that leaves the file as it is. *)
Theorem X15_cmd_release (clock : nat -> Time) (id : string) (s : State) :
  let r := call (cmd_release clock id) s in
  match dict_get id (tasks s) with
  | None => r = (mkReply "error" ("Task " ++ id ++ " not found")%string, s)
  | Some t =>
      fst r = mkReply "success" ("Task " ++ id ++ " released")%string /\
      exists t',
        dict_get id (tasks (snd r)) = Some t' /\
        status t' = PENDING /\ locked_by t' = None /\ locked_at t' = None /\
        completed_at t' = completed_at t /\ task_started_at t' = task_started_at t
  end.
Proof.
  intros r. unfold r, call, cmd_release.
  unfold get_task, release_task, _save_state.
  unfold bind, _load_state, now, ret. cbn [disk].
  destruct (dict_get id (tasks s)) as [t|] eqn:E; [|reflexivity].
  cbn [disk tasks]. rewrite E, locked_by_differs_self. simpl.
  split; [reflexivity|]. rewrite dict_get_set, String.eqb_refl.
  eexists. split; [reflexivity|]. repeat split.
Qed.

(** A completed task is put back in the queue by the command. *)
Lemma X15_cmd_release_witness :
  read_field status seed_id (snd (call (cmd_release (at_time 300) seed_id) st_completed))
  = Some PENDING /\
  read_field completed_at seed_id
    (snd (call (cmd_release (at_time 300) seed_id) st_completed))
  = Some (Some 200).
Proof.
  pose proof (X15_cmd_release (at_time 300) seed_id st_completed) as H.
  cbv zeta in H.
  change (dict_get seed_id (tasks st_completed))
    with (Some (mkTask "seed_dp" COMPLETED None None None (Some 200) 10 [] (Some 100) None))
    in H.
  cbv iota in H. destruct H as [_ (t' & Hg & Hs & _ & _ & Hc & _)].
  rewrite !(read_field_get _ _ _ _ Hg). rewrite Hs, Hc. split; reflexivity.
Defined.

Lemma get_next_task_type clock W a tys s id t :
  fst (call (get_next_task clock W a tys) s) = Some (id, t) ->
  type_matches tys (type t).
Proof.
  rewrite result_get_next_task.
  destruct (first_claimable tys (tasks (reclaimed W (clock 0%nat) s)))
    as [[[l1 [k x]] l2]|] eqn:E; [|discriminate].
  apply first_claimable_Some in E. destruct E as (_ & Hc & _).
  apply claimable_true in Hc. intros [= <- <-]. exact (proj2 Hc).
Qed.

Lemma get_next_task_none_iff clock W a tys s :
  fst (call (get_next_task clock W a tys) s) = None <->
  Forall (fun kv => claimable tys (snd kv) = false)
         (tasks (reclaimed W (clock 0%nat) s)).
Proof.
  rewrite result_get_next_task.
  destruct (first_claimable tys (tasks (reclaimed W (clock 0%nat) s)))
    as [[[l1 [k x]] l2]|] eqn:E.
  - split; [discriminate|]. intros H. apply first_claimable_None in H. congruence.
  - split; [|reflexivity]. intros _. now apply first_claimable_None.
Qed.

(** X16: the task [cmd_next] hands out is stored, in progress and locked
    by the agent id the command makes up, [<task_type>_agent], or
    [default_agent] when no type or the empty type is given; its type is
    the type asked for.  The command answers that there is no task exactly
    when, the timed-out tasks being pending again, there is no pending
    task it could hand out: no task is pending at all, or a type was asked
    for and every pending task has another type.  The collection is then
    the one the timeout reclamation left. *)
Theorem X16_cmd_next (clock : nat -> Time) (artifacts_dir : string)
        (joinpath : string -> string -> string) (task_type : option string)
        (s : State) :
  let r := call (cmd_next clock artifacts_dir joinpath task_type) s in
  let s1 := reclaimed 24 (clock 0%nat) s in
  match fst r with
  | next_success id task path =>
      In (id, task) (tasks (snd r)) /\
      status task = IN_PROGRESS /\
      locked_by task =
        Some (match task_type with
              | Some (String c ty) => (String c ty ++ "_agent")%string
              | _ => "default_agent"
              end) /\
      (forall ty, task_type = Some ty -> nonempty task_type = true -> type task = ty) /\
      path = get_artifact_path artifacts_dir joinpath id (type task)
  | next_no_tasks m =>
      m = "No available tasks" /\
      tasks (snd r) = tasks s1 /\
      forall id t, In (id, t) (tasks (snd r)) -> status t = PENDING ->
                   exists ty, task_type = Some ty /\ nonempty task_type = true /\
                              String.eqb (type t) ty = false
  end /\
  (fst r = next_no_tasks "No available tasks" <->
   forall id t, In (id, t) (tasks s1) -> status t = PENDING ->
                exists ty, task_type = Some ty /\ nonempty task_type = true /\
                           String.eqb (type t) ty = false).
Proof.
  intros r s1.
  set (ty0 := match task_type with Some x => x | None => EmptyString end).
  set (a := if nonempty task_type then (ty0 ++ "_agent")%string else "default_agent").
  set (tys := if nonempty task_type then Some [ty0] else None).
  assert (Er : r = let (o, s') := call (get_next_task clock 24 a tys) s in
                   (match o with
                    | None => next_no_tasks "No available tasks"
                    | Some (id, task) =>
                        next_success id task
                          (get_artifact_path artifacts_dir joinpath id (type task))
                    end, s')).
  { unfold r, call, cmd_next, bind. fold ty0. fold a. fold tys.
    destruct (get_next_task clock 24 a tys {| disk := s; tick := 0 |}) as [[[id t]|] r'];
      reflexivity. }
  assert (Hout : Forall (fun kv => claimable tys (snd kv) = false) (tasks s1) <->
                 forall id t, In (id, t) (tasks s1) -> status t = PENDING ->
                              exists ty, task_type = Some ty /\
                                         nonempty task_type = true /\
                                         String.eqb (type t) ty = false).
  { rewrite Forall_forall. split.
    - intros Hn id t Hin Hp. specialize (Hn _ Hin).
      simpl in Hn. apply claimable_false in Hn.
      unfold tys, ty0 in Hn. destruct task_type as [[|c x]|]; simpl in Hn;
        try (exfalso; apply Hn; split; [exact Hp|exact I]).
      exists (String c x). split; [reflexivity|]. split; [reflexivity|].
      destruct (String.eqb (type t) (String c x)) eqn:E; [|reflexivity].
      apply String.eqb_eq in E. exfalso. apply Hn. split; [exact Hp|].
      left. now symmetry.
    - intros H [id t] Hin. simpl. apply claimable_false. intros [Hp Hm].
      destruct (H id t Hin Hp) as (ty & -> & Hne & Hty).
      unfold tys, ty0 in Hm. rewrite Hne in Hm. simpl in Hm.
      destruct Hm as [Hm|[]]. subst ty. now rewrite String.eqb_refl in Hty. }
  pose proof (get_next_task_claimed clock 24 a tys s) as Hc.
  pose proof (get_next_task_type clock 24 a tys s) as Ht.
  pose proof (get_next_task_none_iff clock 24 a tys s) as Hn. fold s1 in Hn.
  pose proof (tasks_get_next_task clock 24 a tys s) as Hts.
  cbv zeta in Hts.
  change (fst (check_tasks 24 (clock 0%nat) (tasks s))) with (tasks s1) in Hts.
  destruct (call (get_next_task clock 24 a tys) s) as [[[id t]|] s'] eqn:Ec;
    rewrite Er; cbn [fst snd] in *.
  - split.
    + destruct (Hc id t eq_refl) as (Hin & Hs & Hl & _).
      specialize (Ht id t eq_refl).
      split; [exact Hin|]. split; [exact Hs|]. split; [|split; [|reflexivity]].
      * rewrite Hl. unfold a, ty0. destruct task_type as [[|c x]|]; reflexivity.
      * intros ty -> Hne. unfold tys in Ht. rewrite Hne in Ht. simpl in Ht.
        destruct Ht as [H|[]]. now symmetry.
    + split; [discriminate|]. intros H. apply Hout, Hn in H. discriminate H.
  - assert (Hf : Forall (fun kv => claimable tys (snd kv) = false) (tasks s1))
      by now apply Hn.
    apply first_claimable_None in Hf. rewrite Hf in Hts.
    split; [|split; [intros _; now apply Hout, Hn|reflexivity]].
    split; [reflexivity|]. split; [exact Hts|].
    rewrite Hts. now apply Hout, Hn.
Qed.

(** ** The validation scripts *)

Lemma dict_get_update_absent {V} (k : string) (d m : dict V) :
  dict_mem k m = false -> dict_get k (dict_update d m) = dict_get k d.
Proof.
  intros H. rewrite dict_get_update_rev.
  assert (Hn : dict_get k (rev m) = None).
  { apply dict_get_None_keys. unfold keys. rewrite map_rev. rewrite <- in_rev.
    apply dict_get_None_keys. unfold dict_mem in H.
    destruct (dict_get k m); [discriminate H|reflexivity]. }
  now rewrite Hn.
Qed.

Lemma dict_set_all {V} (P : string * V -> Prop) (k : string) (v : V) (d : dict V) :
  Forall P d -> P (k, v) -> Forall P (dict_set k v d).
Proof.
  intros Hd Hv. induction d as [|[k0 v0] d IH]; simpl.
  - constructor; [exact Hv|constructor].
  - inversion Hd; subst. destruct (String.eqb k k0); constructor; auto.
Qed.

(** The id of a task of type [validate] starts with [validate_], and what
    [initialize_tasks] takes for the original id is its random suffix. *)
Lemma validate_id_suffix (u : hex8) :
  startswith (make_task_id "validate" u) "validate_" = true /\
  replace_first "validate_" "" (make_task_id "validate" u) = hex u.
Proof. split; reflexivity. Qed.

Lemma existing_tasks_suffixes (ks : list string) :
  Forall (fun k => exists u, k = make_task_id "validate" u) ks ->
  Forall (fun e => String.length e = 8%nat) (existing_tasks ks).
Proof.
  induction 1 as [|k ks [u ->] _ IH]; simpl; [constructor|].
  constructor; [apply hex_length|exact IH].
Qed.

Lemma entries_keys (ts : dict Task) :
  Forall validation_entry ts ->
  Forall (fun k => exists u, k = make_task_id "validate" u) (keys ts).
Proof.
  induction 1 as [|kv ts [Hk _] _ IH]; simpl; constructor; auto.
Qed.

Lemma initialize_rows_entries csv existing rows : forall s,
  Forall validation_entry (tasks s) ->
  Forall validation_entry (tasks (snd (initialize_rows csv existing rows s))).
Proof.
  induction rows as [|row rows IH]; intros s Hs; [exact Hs|].
  cbn [initialize_rows].
  destruct (negb (nonempty (row_task_id row))); [now apply IH|].
  destruct (str_in _ existing); [now apply IH|].
  rewrite call_create_task.
  match goal with
  | |- context [initialize_rows csv existing rows ?x] =>
      specialize (IH x); destruct (initialize_rows csv existing rows x) as [n s'']
  end.
  simpl in *. apply IH. apply dict_set_all; [exact Hs|].
  split; simpl; eauto.
Qed.

Lemma complete_data st tm rd t :
  data (complete st tm rd t) =
  if truthy rd
  then dict_update (data t) (match rd with Some d => d | None => [] end)
  else data t.
Proof. unfold complete. destruct (truthy rd); reflexivity. Qed.

Lemma edge_validation_entry c k t t' :
  keeps_original c = true ->
  task_edge c k t t' -> validation_entry (k, t) -> validation_entry (k, t').
Proof.
  intros Hc He [Hk [o Ho]]. split; [exact Hk|]. exists o. cbn [fst snd] in *.
  destruct He; cbn [keeps_original] in Hc; auto; try discriminate Hc.
  - rewrite complete_data. destruct rd as [[|x d]|]; cbn [truthy]; try exact Ho.
    apply negb_true_iff in Hc. now rewrite dict_get_update_absent.
  - apply negb_true_iff in Hc.
    change (data (merge_data d tm t)) with (dict_update (data t) d).
    now rewrite dict_get_update_absent.
Qed.

Lemma validation_store_entries s :
  validation_store s -> Forall validation_entry (tasks s).
Proof.
  induction 1 as [clock|s csv rows n s' _ IH E|s W clock c _ IH Hc].
  - constructor.
  - unfold initialize_tasks in E.
    destruct (fst (call get_status_summary s)); [|discriminate E].
    injection E as E. apply (f_equal snd) in E. cbn [snd] in E. subst s'.
    now apply initialize_rows_entries.
  - destruct (exec_edges W clock c s) as (ts' & extra & -> & H2 & Hx).
    apply Forall_app. split.
    + clear Hx. induction H2 as [|[k x] [k' y] ts ts' [Hk Hxy] _ IH2]; [constructor|].
      simpl in Hk, Hxy. subst k'. inversion IH; subst.
      constructor; [|auto]. eapply edge_validation_entry; eauto.
    + destruct c; simpl in Hc; try discriminate Hc;
        destruct extra as [|x extra]; try constructor;
        inversion Hx as [|? ? Hf _]; destruct Hf.
Qed.

(** The loop creates a task for the new rows and skips the others. *)
Lemma initialize_rows_cons csv existing row rows s :
  initialize_rows csv existing (row :: rows) s =
  if row_is_new existing row
  then let r := initialize_rows csv existing rows
                  (stamp (row_clock row 1%nat)
                     (set_tasks (dict_set (row_key row) (snd (validation_task csv row))
                                          (tasks s)) s)) in
       (S (fst r), snd r)
  else initialize_rows csv existing rows s.
Proof.
  cbn [initialize_rows]. unfold row_is_new, validation_task, row_key. cbn [snd].
  destruct (row_task_id row) as [[|c x]|]; cbn [nonempty negb]; try reflexivity.
  destruct (str_in (String c x) existing); cbn [negb]; [reflexivity|].
  rewrite call_create_task. cbn [snd].
  destruct (initialize_rows csv existing rows _); reflexivity.
Qed.

Lemma initialize_rows_count csv existing rows : forall s,
  fst (initialize_rows csv existing rows s)
  = List.length (filter (row_is_new existing) rows).
Proof.
  induction rows as [|row rows IH]; intros s; [reflexivity|].
  rewrite initialize_rows_cons. cbn [filter].
  destruct (row_is_new existing row); [|apply IH].
  cbn [fst List.length]. now rewrite IH.
Qed.

Lemma initialize_rows_keys_kept csv existing rows : forall s k,
  In k (keys (tasks s)) ->
  In k (keys (tasks (snd (initialize_rows csv existing rows s)))).
Proof.
  induction rows as [|row rows IH]; intros s k Hk; [exact Hk|].
  rewrite initialize_rows_cons.
  destruct (row_is_new existing row); [|now apply IH].
  cbn [snd]. apply IH. cbn [tasks stamp set_metadata set_tasks].
  rewrite dict_set_keys. destruct (dict_mem _ _); [exact Hk|].
  apply in_or_app. now left.
Qed.

Lemma initialize_rows_keys csv existing rows : forall s row,
  In row (filter (row_is_new existing) rows) ->
  In (row_key row) (keys (tasks (snd (initialize_rows csv existing rows s)))).
Proof.
  induction rows as [|r rows IH]; intros s row Hin; [destruct Hin|].
  rewrite initialize_rows_cons. cbn [filter] in Hin.
  destruct (row_is_new existing r) eqn:E; [|now apply IH].
  cbn [snd]. destruct Hin as [->|Hin]; [|now apply IH].
  apply initialize_rows_keys_kept. cbn [tasks stamp set_metadata set_tasks].
  rewrite dict_set_keys. destruct (dict_mem _ _) eqn:Em.
  - now apply dict_mem_keys.
  - apply in_or_app. right. now left.
Qed.

Lemma initialize_rows_tasks csv existing rows : forall s,
  NoDup (keys (tasks s) ++ map row_key (filter (row_is_new existing) rows)) ->
  tasks (snd (initialize_rows csv existing rows s))
  = tasks s ++ map (validation_task csv) (filter (row_is_new existing) rows).
Proof.
  induction rows as [|row rows IH]; intros s Hn.
  - simpl. now rewrite app_nil_r.
  - rewrite initialize_rows_cons. cbn [filter] in *.
    destruct (row_is_new existing row); [|now apply IH].
    cbn [snd map] in *.
    assert (Hfresh : dict_get (row_key row) (tasks s) = None).
    { apply dict_get_None_keys. intros Hin.
      apply NoDup_remove_2 in Hn. apply Hn. apply in_or_app. now left. }
    rewrite IH; cbn [tasks stamp set_metadata set_tasks];
      rewrite (dict_set_absent _ _ _ Hfresh).
    + rewrite <- app_assoc. reflexivity.
    + unfold keys in *. rewrite map_app, <- app_assoc. exact Hn.
Qed.

(** On the ids of a validation store, the set [existing_tasks] holds the
    random suffixes: the ids without their first nine characters. *)
Lemma existing_tasks_drop (ks : list string) :
  Forall (fun k => exists u, k = make_task_id "validate" u) ks ->
  existing_tasks ks = map (drop 9) ks.
Proof.
  induction 1 as [|k ks [u ->] _ IH]; simpl; [reflexivity|].
  now rewrite IH.
Qed.

(** X18: on a state file of the validation, [initialize_tasks] does not
    raise and queues one task for each row whose [task_id] is not empty
    and is not the random suffix of a stored id, and for no other row; it
    returns the number of these rows.  The id drawn for each of them is a
    key of the store afterwards, and when the ids drawn are new and
    distinct the collection is the one before followed by one pending task
    of type [validate] per queued row, in the order of the file, holding
    the row's [task_id], the path of the file and the time.  A row whose
    [task_id] is neither empty nor eight characters long is always
    queued, the rows queued by an earlier run included: what a row is
    compared with is the suffix of the stored ids, not the
    [original_task_id] of the stored tasks. *)
Theorem X18_initialize_tasks_requeues (csv_path : string) (rows : list Row) (s : State) :
  validation_store s ->
  let new_rows := filter (row_is_new (map (drop 9) (keys (tasks s)))) rows in
  exists s',
    initialize_tasks csv_path rows s = Some (List.length new_rows, s') /\
    validation_store s' /\
    (forall row, In row new_rows -> In (row_key row) (keys (tasks s'))) /\
    (NoDup (keys (tasks s) ++ map row_key new_rows) ->
     tasks s' = tasks s ++ map (validation_task csv_path) new_rows) /\
    (forall row id, In row rows -> row_task_id row = Some id ->
                    String.length id <> 0%nat -> String.length id <> 8%nat ->
                    In row new_rows).
Proof.
  intros Hs new_rows.
  destruct (count_tasks_spec (tasks s) zero_status_counts [])
    as (sc & tc & E & _); [intros []; discriminate|].
  pose proof (entries_keys _ (validation_store_entries _ Hs)) as Hk.
  assert (Ei : initialize_tasks csv_path rows s =
               Some (initialize_rows csv_path (map (drop 9) (keys (tasks s))) rows s)).
  { unfold initialize_tasks, call, get_status_summary, bind, _load_state. cbn [disk].
    rewrite (existing_tasks_drop _ Hk).
    destruct (count_tasks _ (tasks s)) as [[sc0 tc0]|]; [reflexivity|discriminate E]. }
  exists (snd (initialize_rows csv_path (map (drop 9) (keys (tasks s))) rows s)).
  assert (Ei' : initialize_tasks csv_path rows s =
                Some (List.length new_rows,
                      snd (initialize_rows csv_path (map (drop 9) (keys (tasks s))) rows s))).
  { rewrite Ei. unfold new_rows.
    rewrite <- (initialize_rows_count csv_path _ rows s).
    now rewrite <- surjective_pairing. }
  split; [exact Ei'|]. split; [exact (vs_initialize s csv_path rows _ _ Hs Ei')|].
  split; [intros row; apply initialize_rows_keys|].
  split; [apply initialize_rows_tasks|].
  intros row id Hin Hid H0 H8. apply filter_In. split; [exact Hin|].
  unfold row_is_new. rewrite Hid. destruct id as [|c x]; [simpl in H0; congruence|].
  apply negb_true_iff. destruct (str_in (String c x) _) eqn:Ein; [|reflexivity].
  apply str_in_In in Ein. rewrite <- (existing_tasks_drop _ Hk) in Ein.
  pose proof (existing_tasks_suffixes _ Hk) as Hl. rewrite Forall_forall in Hl.
  apply Hl in Ein. congruence.
Qed.

(** The row queued by the first run is queued again by the second: the
    store then holds two tasks for the datapoint. *)
Lemma X18_initialize_tasks_requeues_witness :
  exists s',
    initialize_tasks "data/latest.csv" [row_again] st_validation = Some (1%nat, s') /\
    tasks s' =
    [("validate_00000000",
      mkTask "validate" PENDING None None None None 6
             [("original_task_id", JStr "draft_dp_ab12cd34");
              ("csv_path", JStr "data/latest.csv"); ("created_at", JStamp 5)] None None);
     ("validate_00000001",
      mkTask "validate" PENDING None None None None 60
             [("original_task_id", JStr "draft_dp_ab12cd34");
              ("csv_path", JStr "data/latest.csv"); ("created_at", JStamp 50)] None None)].
Proof.
  destruct (X18_initialize_tasks_requeues "data/latest.csv" [row_again] st_validation)
    as (s' & E & _ & _ & Ht & _).
  - apply (vs_initialize st_init "data/latest.csv" [row_first] 1 st_validation).
    + apply vs_init.
    + reflexivity.
  - exists s'. split; [exact E|]. rewrite Ht; [reflexivity|].
    constructor; [|constructor; [intros []|constructor]].
    intros [H|[]]. discriminate H.
Defined.

Lemma completed_originals_spec (ts : dict Task) :
  Forall validation_entry ts ->
  exists l,
    completed_originals ts = Some l /\
    forall v, In v l <->
              exists id t, In (id, t) ts /\ status t = COMPLETED /\
                           dict_get "original_task_id" (data t) = Some v.
Proof.
  induction 1 as [|[k t] ts [[u Hk] [o Ho]] _ (l & El & Hl)]; simpl in *.
  - exists []. split; [reflexivity|]. intros v. split; [intros []|].
    intros (id & t & [] & _).
  - subst k. rewrite (proj1 (validate_id_suffix u)), andb_true_r, Ho, El. simpl.
    destruct (status_eqb (status t) COMPLETED) eqn:Es.
    + apply status_eqb_eq in Es. exists (JStr o :: l). split; [reflexivity|].
      intros v. simpl. rewrite Hl. split.
      * intros [<-|(id & x & Hin & Hx)]; [exists (make_task_id "validate" u), t; auto|].
        exists id, x. auto.
      * intros (id & x & [[= <- <-]|Hin] & Hs & Hx); [left; congruence|].
        right. exists id, x. auto.
    + exists l. split; [reflexivity|]. intros v. rewrite Hl. split.
      * intros (id & x & Hin & Hx). exists id, x. auto.
      * intros (id & x & [[= <- <-]|Hin] & Hs & Hx).
        -- apply status_eqb_eq in Hs. congruence.
        -- exists id, x. auto.
Qed.

(** X19: on a state file of the validation, [get_completed_task_ids]
    raises neither a [KeyError] nor a [TypeError] and leaves the file as
    it is; the ids it returns are the [original_task_id] of the completed
    tasks, and of no pending, failed, cancelled or running task. *)
Theorem X19_completed_task_ids (s : State) :
  validation_store s ->
  exists l,
    call get_completed_task_ids s = (Some l, s) /\
    forall v, In v l <->
              exists id t, In (id, t) (tasks s) /\ status t = COMPLETED /\
                           dict_get "original_task_id" (data t) = Some v.
Proof.
  intros Hs.
  destruct (completed_originals_spec _ (validation_store_entries _ Hs)) as (l & El & Hl).
  exists l. split; [|exact Hl].
  unfold call, get_completed_task_ids, bind, _load_state, ret. cbn [disk]. now rewrite El.
Qed.

Lemma X19_completed_task_ids_witness :
  exists l,
    call get_completed_task_ids
         (exec 24 (at_time 90) (CompleteTask "validate_00000000" (Some "worker-001") COMPLETED None)
               (exec 24 (at_time 80) (GetNextTask "worker-001" (Some ["validate"]))
                     st_validation))
    = (Some l,
       exec 24 (at_time 90) (CompleteTask "validate_00000000" (Some "worker-001") COMPLETED None)
            (exec 24 (at_time 80) (GetNextTask "worker-001" (Some ["validate"]))
                  st_validation)) /\
    (In (JStr "draft_dp_ab12cd34") l <->
     exists id t,
       In (id, t)
          (tasks (exec 24 (at_time 90)
                       (CompleteTask "validate_00000000" (Some "worker-001") COMPLETED None)
                       (exec 24 (at_time 80) (GetNextTask "worker-001" (Some ["validate"]))
                             st_validation))) /\
       status t = COMPLETED /\
       dict_get "original_task_id" (data t) = Some (JStr "draft_dp_ab12cd34")).
Proof.
  destruct (X19_completed_task_ids
              (exec 24 (at_time 90)
                    (CompleteTask "validate_00000000" (Some "worker-001") COMPLETED None)
                    (exec 24 (at_time 80) (GetNextTask "worker-001" (Some ["validate"]))
                          st_validation))) as (l & E & H).
  - apply vs_call; [|reflexivity]. apply vs_call; [|reflexivity].
    apply (vs_initialize st_init "data/latest.csv" [row_first] 1 st_validation).
    + apply vs_init.
    + reflexivity.
  - exists l. split; [exact E|apply H].
Defined.
